(** * IQmol, Layer::CanonicalOrbitals  (src/Layer/CanonicalOrbitalsLayer.C)

    A shallow embedding of the density-matrix construction
    ([computeDensityVectors]), of the constructor of the layer and of the
    first-order density request ([computeFirstOrderDensityMatrix],
    [firstOrderDensityMatrixFinished]), followed by the properties that the
    specification states about them.

    Conventions.
    - [unsigned] loop counters and sizes are [nat]: every counter is
      compared against its bound before it is incremented, so none wraps.
      The one conversion that can change a value, [(int)Na], is written out
      on [Z].
    - [double] is kept abstract behind the class [Scalar]; the instance at
      Rocq's binary64 floats is the arithmetic of the program, the instance
      at [Z] is exact arithmetic.
    - An element access outside the bounds of a ublas matrix or of a QList
      has no defined result (ublas raises [bad_index] only when its checks
      are compiled in): the model yields [None] there. *)

From Stdlib Require Import PrimFloat Uint63 Floats.
From stdpp Require Import base option numbers list strings.

Set Default Proof Using "Type".
Set Warnings "-inexact-float".
Local Open Scope nat_scope.

(** ** Scalars *)

Class Scalar (T : Type) := {
  zero : T;
  add : T → T → T;
  sub : T → T → T;
  mul : T → T → T;
}.

(** [double] of the program. *)
#[export] Instance float_Scalar : Scalar float := {|
  zero := PrimFloat.zero;
  add := PrimFloat.add;
  sub := PrimFloat.sub;
  mul := PrimFloat.mul;
|}.

(** Exact integer arithmetic. *)
#[export] Instance Z_Scalar : Scalar Z := {|
  zero := 0%Z;
  add := Z.add;
  sub := Z.sub;
  mul := Z.mul;
|}.

(** ** Counted loops

    [for (unsigned i = lo; i < hi; ++i) body], the body threading a state
    and possibly failing. *)

Fixpoint for_loop {St : Type} (count i : nat) (body : nat → St → option St)
    (s : St) : option St :=
  match count with
  | 0 => Some s
  | S count' => s' ← body i s; for_loop count' (i + 1) body s'
  end.

Definition for_range {St : Type} (lo hi : nat) (body : nat → St → option St)
    (s : St) : option St :=
  for_loop (hi - lo) lo body s.

(** ** Dense matrices (boost::numeric::ublas::matrix<double>, row major) *)

Section Matrices.
Context {T : Type} `{Scalar T}.

Record Matrix := mkMatrix {
  size1 : nat;
  size2 : nat;
  data : list T;
}.

(** The storage of a matrix holds [size1 * size2] elements. *)
Definition wf (A : Matrix) : Prop := length (data A) = size1 A * size2 A.

Definition in_range (A : Matrix) (i j : nat) : bool :=
  bool_decide (i < size1 A) && bool_decide (j < size2 A).

(** Element [(i, j)] of the storage, [data_[i * size2_ + j]]. *)
Definition elt (A : Matrix) (i j : nat) : T :=
  default zero (data A !! (i * size2 A + j)).

(** [A(i, j)] read. *)
Definition at_ (A : Matrix) (i j : nat) : option T :=
  if in_range A i j then Some (elt A i j) else None.

(** [A(i, j) = v]. *)
Definition set_at (A : Matrix) (i j : nat) (v : T) : option Matrix :=
  if in_range A i j
  then Some (mkMatrix (size1 A) (size2 A) (<[i * size2 A + j := v]> (data A)))
  else None.

(** The matrix of the given shape whose element [(i, j)] is [f i j]: how
    ublas evaluates an expression template into dense storage. *)
Definition matrix_of (n m : nat) (f : nat → nat → T) : Matrix :=
  mkMatrix n m ((λ p, f (p / m) (p mod m)) <$> seq 0 (n * m)).

(** [Matrix A(n, m)]: the storage is allocated and not initialised;
    [junk] stands for whatever it holds. *)
Definition Matrix_new (junk : nat → T) (n m : nat) : Matrix :=
  mkMatrix n m (junk <$> seq 0 (n * m)).

(** [A.resize(n, m)], which preserves the elements common to the old and
    the new shape and leaves the others uninitialised. *)
Definition resize (junk : nat → T) (A : Matrix) (n m : nat) : Matrix :=
  matrix_of n m (λ i j, if in_range A i j then elt A i j else junk (i * m + j)).

(** [trans(A)]. *)
Definition trans (A : Matrix) : Matrix :=
  matrix_of (size2 A) (size1 A) (λ i j, elt A j i).

(** [prod(A, B)]: element [(i, j)] accumulates [A(i,k) * B(k,j)] over
    [k = 0 .. size2 A - 1], starting from zero.  The shapes must agree. *)
Definition prod_elt (A B : Matrix) (i j : nat) : T :=
  foldl (λ t k, add t (mul (elt A i k) (elt B k j))) zero (seq 0 (size2 A)).

Definition prod (A B : Matrix) : option Matrix :=
  if bool_decide (size2 A = size1 B)
  then Some (matrix_of (size1 A) (size2 B) (prod_elt A B))
  else None.

Definition same_shape (A B : Matrix) : bool :=
  bool_decide (size1 A = size1 B) && bool_decide (size2 A = size2 B).

(** [A + B] and [A - B], elementwise; the shapes must agree. *)
Definition madd (A B : Matrix) : option Matrix :=
  if same_shape A B
  then Some (matrix_of (size1 A) (size2 A) (λ i j, add (elt A i j) (elt B i j)))
  else None.

Definition msub (A B : Matrix) : option Matrix :=
  if same_shape A B
  then Some (matrix_of (size1 A) (size2 A) (λ i j, sub (elt A i j) (elt B i j)))
  else None.

(** [noalias(P) = E]: the shapes must agree, every element is replaced. *)
Definition noalias_assign (P E : Matrix) : option Matrix :=
  if same_shape P E then Some E else None.

(** Used to state what a loop nest of assignments leaves behind. *)

(** A matrix [M] obtained from [A] by overwriting the positions in
    [filled] with the values [g] yields there. *)
Definition overwritten (A : Matrix) (g : nat → nat → option T)
    (filled : nat → nat → Prop) (M : Matrix) : Prop :=
  wf M ∧ size1 M = size1 A ∧ size2 M = size2 A ∧
  ∀ i j, i < size1 A → j < size2 A →
    (filled i j → g i j = Some (elt M i j)) ∧
    (¬ filled i j → elt M i j = elt A i j).

End Matrices.

Arguments Matrix T : clear implicits.

(** ** Data handed to the layer (Data::CanonicalOrbitals and its parts)

    The declarations live in headers outside this file; the records keep
    what [CanonicalOrbitalsLayer.C] reads from them. *)

(** Data::Orbitals::OrbitalType; this file names [Canonical] only. *)
Inductive OrbitalType :=
  | Undefined | Canonical | Localized | NaturalTransition | NaturalBond.

#[export] Instance OrbitalType_eq_dec : EqDecision OrbitalType.
Proof. solve_decision. Defined.

(** Data::SurfaceType::Kind, the kinds this file and its inputs use. *)
Inductive SurfaceKind :=
  | Custom | AlphaOrbital | BetaOrbital
  | AlphaDensity | BetaDensity | TotalDensity | SpinDensity
  | MullikenDiatomic | MullikenAtomic.

#[export] Instance SurfaceKind_eq_dec : EqDecision SurfaceKind.
Proof. solve_decision. Defined.

Section Program.
Context {T : Type} `{Scalar T}.
(** Contents of freshly allocated matrix storage. *)
Variable junk : nat → T.
(** Data::GridData and the element type of the histogram [m_values]. *)
Context {GridData HistValue : Type}.
(** [findGrids(kind)] of the base layer: the grids the orbital grid store
    holds for a kind. *)
Variable findGrids : SurfaceKind → list GridData.

(** Data::Density(type, matrix, label). *)
Record Density := mkDensity {
  d_type : SurfaceKind;
  d_matrix : Matrix T;
  d_label : string;
}.

Record CanonicalOrbitalsData := mkData {
  orbitalType : OrbitalType;
  nBasis : nat;
  nAlpha : nat;
  nBeta : nat;
  alphaCoefficients : Matrix T;
  betaCoefficients : Matrix T;
  (** [shellList().basisAtomOffsets()]: first basis function of each atom. *)
  basisAtomOffsets : list nat;
  densityList : list Density;
}.

(** ** The layer object; pointers are addresses into the object stores of
    [World], the null pointer is [None]. *)
Record Layer := mkLayer {
  m_canonicalOrbitals : CanonicalOrbitalsData;
  m_availableDensities : list Density;
  m_progressDialog : option nat;
  m_gridProduct : option nat;
  m_values : list HistValue;
}.

Definition append_density (l : Layer) (ds : list Density) : Layer :=
  mkLayer (m_canonicalOrbitals l) (m_availableDensities l ++ ds)
          (m_progressDialog l) (m_gridProduct l) (m_values l).

(** Lines 76-80 and 89-93: [coeffs(i,j) = source(i,j)] for [i < rows],
    [j < N]. *)
Definition copy_coefficients (source : Matrix T) (rows N : nat)
    (coeffs : Matrix T) : option (Matrix T) :=
  for_range 0 rows (λ i,
    for_range 0 N (λ j c, v ← at_ source i j; set_at c i j v)) coeffs.

(** Lines 114-122: the square block of every atom is set to zero. *)
Definition zero_atom_blocks (offsets : list nat) (nAtoms : nat)
    (Mull : Matrix T) : option (Matrix T) :=
  for_range 0 nAtoms (λ atom M,
    begin ← offsets !! atom;
    end_ ← offsets !! (atom + 1);
    for_range begin end_ (λ i,
      for_range begin end_ (λ j M', set_at M' i j zero)) M) Mull.

(** [P = prod(trans(coeffs), coeffs)] into a fresh N x N matrix. *)
Definition density_of (coeffs : Matrix T) (N : nat) : option (Matrix T) :=
  E ← prod (trans coeffs) coeffs;
  noalias_assign (Matrix_new junk N N) E.

Definition computeDensityVectors (l : Layer) : option Layer :=
  let co := m_canonicalOrbitals l in
  let N := nBasis co in
  let Na := nAlpha co in
  let Nb := nBeta co in
  let coeffs := Matrix_new junk Na N in
  coeffs ← copy_coefficients (alphaCoefficients co) Na N coeffs;
  Pa ← density_of coeffs N;
  let l := append_density l [mkDensity AlphaDensity Pa "Alpha Density"] in
  let coeffs := resize junk coeffs Nb N in
  coeffs ← copy_coefficients (betaCoefficients co) Nb N coeffs;
  Pb ← density_of coeffs N;
  let l := append_density l [mkDensity BetaDensity Pb "Beta Density"] in
  total ← madd Pa Pb;
  let l := append_density l [mkDensity TotalDensity total "Total Density"] in
  spin ← msub Pa Pb;
  let l := append_density l [mkDensity SpinDensity spin "Spin Density"] in
  let offsets := basisAtomOffsets co in
  let nAtoms := length offsets in
  let offsets := offsets ++ [N] in
  Mull ← madd Pa Pb;
  Mull ← zero_atom_blocks offsets nAtoms Mull;
  let l := append_density l
    [mkDensity MullikenDiatomic Mull "Mulliken Diatomic Density"] in
  PaPb ← madd Pa Pb;
  Mull ← msub PaPb Mull;
  Some (append_density l
    [mkDensity MullikenAtomic Mull "Mulliken Atomic Density"]).

(** What the program writes to its logs. *)
Inductive LogEntry :=
  | QDebugCount (msg : string) (n : nat)
  | QLogError (msg : string)
  | QLogInfo (msg : string)
  | QDebugBin (x : float) (v : HistValue).

(** The constructor.  [inherited] is the density list as the constructor
    of the base class Layer::Orbitals (outside this file) leaves it. *)
Definition CanonicalOrbitals_ctor (inherited : list Density)
    (canonicalOrbitals : CanonicalOrbitalsData) : option (Layer * list LogEntry) :=
  let l := mkLayer canonicalOrbitals inherited None None [] in
  l ← (if decide (orbitalType canonicalOrbitals = Canonical)
       then computeDensityVectors l else Some l);
  let l := append_density l (densityList canonicalOrbitals) in
  Some (l, [QDebugCount "Number of available densities"
              (length (m_availableDensities l))]).

(** ** Objects created by the first-order density request *)

(** [new GridProduct(m_values, orbitalGrids, binSize)]; the histogram
    [m_values] stays in the layer and is not copied into the job. *)
Record GridProduct := mkGridProduct {
  gp_grids : list GridData;
  gp_binSize : float;
  gp_started : bool;
}.

(** [GridProduct::totalProgress()], declared in GridProduct.h. *)
Variable totalProgress : GridProduct → Z.

Inductive WindowModality := NonModal | WindowModal | ApplicationModal.

Record QProgressDialog := mkDialog {
  pd_modality : WindowModality;
  pd_visible : bool;
  pd_maximum : Z;
  pd_deleteLater : bool;
}.

(** The two [connect] calls: sender, signal, receiver, slot. *)
Inductive Connection :=
  | progressValue_setValue (job dialog : nat)
  | finished_firstOrderDensityMatrixFinished (job : nat).

Record World := mkWorld {
  this : Layer;
  gridProducts : list GridProduct;
  progressDialogs : list QProgressDialog;
  connections : list Connection;
  qlog : list LogEntry;
}.

(** [(int)u] for an [unsigned] u, 32 bits. *)
Definition int_of_unsigned (u : Z) : Z :=
  let u := (u mod 2 ^ 32)%Z in
  if bool_decide (u < 2 ^ 31)%Z then u else (u - 2 ^ 32)%Z.

Definition set_pointers (l : Layer) (dialog job : option nat) : Layer :=
  mkLayer (m_canonicalOrbitals l) (m_availableDensities l) dialog job
          (m_values l).

Definition binSize : float := 0.1%float.

Definition computeFirstOrderDensityMatrix (w : World) : World :=
  let Na := nAlpha (m_canonicalOrbitals (this w)) in
  let orbitalGrids := findGrids AlphaOrbital in
  if bool_decide (Z.of_nat (length orbitalGrids) ≠ int_of_unsigned (Z.of_nat Na))
  then
    mkWorld (this w) (gridProducts w) (progressDialogs w) (connections w)
            (qlog w ++ [QLogError "Not all orbitals available"])
  else
    let gridProduct := mkGridProduct orbitalGrids binSize false in
    let job := length (gridProducts w) in
    let jobs := gridProducts w ++ [gridProduct] in
    let dialog := length (progressDialogs w) in
    let dialogs := progressDialogs w ++
      [mkDialog NonModal true (totalProgress gridProduct) false] in
    let conns := connections w ++
      [progressValue_setValue job dialog;
       finished_firstOrderDensityMatrixFinished job] in
    let log := qlog w ++ [QLogInfo "Starting grid calc"] in
    mkWorld (set_pointers (this w) (Some dialog) (Some job))
            (alter (λ g, mkGridProduct (gp_grids g) (gp_binSize g) true) job jobs)
            dialogs conns log.

(** [i * binSize] with [i] converted to double. *)
Definition bin_start (i : nat) : float :=
  PrimFloat.mul (PrimFloat.of_uint63 (Uint63.of_Z (Z.of_nat i))) binSize.

(** The slot run on [finished()].  [m_progressDialog->deleteLater()] needs
    a dialog. *)
Definition firstOrderDensityMatrixFinished (w : World) : option World :=
  dialog ← m_progressDialog (this w);
  let dialogs := alter (λ d, mkDialog (pd_modality d) (pd_visible d)
                               (pd_maximum d) true) dialog (progressDialogs w) in
  Some (mkWorld (set_pointers (this w) None (m_gridProduct (this w)))
                (gridProducts w) dialogs (connections w)
                (qlog w ++ imap (λ i v, QDebugBin (bin_start i) v)
                                (m_values (this w)))).

End Program.

(** ** Notions used to state the properties *)

Section Notions.
Context {T : Type} `{Scalar T}.

(** [f 0 + f 1 + ... + f (n-1)], summed from the left starting at zero. *)
Fixpoint sum_below (n : nat) (f : nat → T) : T :=
  match n with
  | 0 => zero
  | S n' => add (sum_below n' f) (f n')
  end.

(** Element [(i, j)] of Cᵗ·C for the first [rows] rows of [C]. *)
Definition CtC (C : Matrix T) (rows i j : nat) : T :=
  sum_below rows (λ k, mul (elt C k i) (elt C k j)).

(** Basis functions [i] and [j] lie in the range of one atom, the range of
    atom [k] running from [offsets[k]] to the next offset, and to [N] for
    the last atom. *)
Definition same_atom (offsets : list nat) (N i j : nat) : Prop :=
  ∃ atom b e, atom < length offsets ∧
    (offsets ++ [N]) !! atom = Some b ∧ (offsets ++ [N]) !! (atom + 1) = Some e ∧
    b ≤ i < e ∧ b ≤ j < e.

(** Inputs on which every element access of [computeDensityVectors] is in
    range: the coefficient matrices hold at least the occupied rows and
    the [N] columns, and no atom starts beyond [N]. *)
Definition valid_input (co : CanonicalOrbitalsData (T:=T)) : Prop :=
  wf (alphaCoefficients co) ∧
  nAlpha co ≤ size1 (alphaCoefficients co) ∧
  nBasis co ≤ size2 (alphaCoefficients co) ∧
  wf (betaCoefficients co) ∧
  nBeta co ≤ size1 (betaCoefficients co) ∧
  nBasis co ≤ size2 (betaCoefficients co) ∧
  Forall (λ o, o ≤ nBasis co) (basisAtomOffsets co).

(** A square matrix of order [N] in well-formed storage. *)
Definition square (N : nat) (M : Matrix T) : Prop :=
  wf M ∧ size1 M = N ∧ size2 M = N.

(** The six densities in the order [computeDensityVectors] appends them. *)
Definition six_densities (Pa Pb Tot Spin Dia Atm : Matrix T) : list Density :=
  [ mkDensity AlphaDensity Pa "Alpha Density";
    mkDensity BetaDensity Pb "Beta Density";
    mkDensity TotalDensity Tot "Total Density";
    mkDensity SpinDensity Spin "Spin Density";
    mkDensity MullikenDiatomic Dia "Mulliken Diatomic Density";
    mkDensity MullikenAtomic Atm "Mulliken Atomic Density" ].

(** What the six matrices hold, element by element. *)
Definition densities_of (co : CanonicalOrbitalsData (T:=T))
    (Pa Pb Tot Spin Dia Atm : Matrix T) : Prop :=
  let N := nBasis co in
  square N Pa ∧ square N Pb ∧ square N Tot ∧ square N Spin ∧
  square N Dia ∧ square N Atm ∧
  (∀ i j, i < N → j < N →
     elt Pa i j = CtC (alphaCoefficients co) (nAlpha co) i j ∧
     elt Pb i j = CtC (betaCoefficients co) (nBeta co) i j ∧
     elt Tot i j = add (elt Pa i j) (elt Pb i j) ∧
     elt Spin i j = sub (elt Pa i j) (elt Pb i j) ∧
     elt Atm i j = sub (add (elt Pa i j) (elt Pb i j)) (elt Dia i j)) ∧
  overwritten Tot (λ _ _, Some zero) (same_atom (basisAtomOffsets co) N) Dia.

End Notions.

(** A request that is turned down: an error is logged, and neither the
    layer nor any job, dialog or connection changes. *)
Definition request_rejected {T : Type} {GridData HistValue : Type}
    (w w' : World (T:=T) (GridData:=GridData) (HistValue:=HistValue)) : Prop :=
  this w' = this w ∧ gridProducts w' = gridProducts w ∧
  progressDialogs w' = progressDialogs w ∧ connections w' = connections w ∧
  ∃ msg, qlog w' = qlog w ++ [QLogError msg].

(** ** Concrete inputs *)

(** Three basis functions, two occupied alpha orbitals, one occupied beta
    orbital, two atoms owning the basis functions [0,2) and [2,3); exact
    arithmetic. *)
Definition ex_data : CanonicalOrbitalsData (T:=Z) :=
  mkData Canonical 3 2 1
    (mkMatrix 2 3 [1; 2; 0; 0; 1; 3]%Z)
    (mkMatrix 1 3 [1; 1; 2]%Z)
    [0; 2] [].

Definition ex_layer : Layer (T:=Z) (HistValue:=unit) :=
  mkLayer ex_data [] None None [].

(** Binary64 arithmetic: three basis functions, two occupied alpha
    orbitals, one occupied beta orbital, and three atoms of which the
    second owns no basis function (ranges [0,2), [2,2), [2,3)). *)
Definition ex_double_empty_atom : CanonicalOrbitalsData (T:=float) :=
  mkData Canonical 3 2 1
    (mkMatrix 2 3 [1; 0.5; 0; 0; 1; 2]%float)
    (mkMatrix 1 3 [1; 1; 2]%float)
    [0; 2; 2] [].

Definition ex_double_empty_atom_layer : Layer (T:=float) (HistValue:=unit) :=
  mkLayer ex_double_empty_atom [] None None [].

(** Binary64 arithmetic: two basis functions on two atoms, one occupied
    alpha orbital with coefficients 1e200, whose products overflow. *)
Definition ex_double_overflow : CanonicalOrbitalsData (T:=float) :=
  mkData Canonical 2 1 0
    (mkMatrix 1 2 [1e200; 1e200]%float)
    (mkMatrix 0 2 [])
    [0; 1] [].

Definition ex_double_overflow_layer : Layer (T:=float) (HistValue:=unit) :=
  mkLayer ex_double_overflow [] None None [].

(** N = 3, occupied alpha rows [[1,0,0],[0,1,0]], no beta electron, one
    atom; binary64 arithmetic. *)
Definition ex_double : CanonicalOrbitalsData (T:=float) :=
  mkData Canonical 3 2 0
    (mkMatrix 2 3 [1; 0; 0; 0; 1; 0]%float)
    (mkMatrix 0 3 [])
    [0] [].

Definition ex_double_layer : Layer (T:=float) (HistValue:=unit) :=
  mkLayer ex_double [] None None [].

Definition diag_1_1_0 : Matrix float :=
  mkMatrix 3 3 [1; 0; 0; 0; 1; 0; 0; 0; 0]%float.

(** An upstream-supplied density, and [ex_data] carrying it. *)
Definition ex_upstream : Density (T:=Z) :=
  mkDensity Custom (mkMatrix 1 1 [5%Z]) "Upstream".

Definition ex_data_upstream : CanonicalOrbitalsData (T:=Z) :=
  mkData Canonical 3 2 1
    (mkMatrix 2 3 [1; 2; 0; 0; 1; 3]%Z)
    (mkMatrix 1 3 [1; 1; 2]%Z)
    [0; 2] [ex_upstream].

(** Localized orbitals carrying the upstream density. *)
Definition ex_data_localized : CanonicalOrbitalsData (T:=Z) :=
  mkData Localized 3 2 1
    (mkMatrix 2 3 [1; 2; 0; 0; 1; 3]%Z)
    (mkMatrix 1 3 [1; 1; 2]%Z)
    [0; 2] [ex_upstream].



(** A grid store holding two alpha orbital grids (grids named by numbers),
    each of eight points. *)
Definition ex_findGrids (kind : SurfaceKind) : list nat :=
  match kind with AlphaOrbital => [0; 1] | _ => [] end.

Definition ex_totalProgress (job : GridProduct (GridData:=nat)) : Z := 8.

(** A grid store holding one alpha orbital grid only. *)
Definition ex_findGrids_short (kind : SurfaceKind) : list nat :=
  match kind with AlphaOrbital => [0] | _ => [] end.

(** No request made yet. *)
Definition ex_world_idle : World (T:=Z) (GridData:=nat) (HistValue:=unit) :=
  mkWorld ex_layer [] [] [] [].


(** ** Loop-free description of the six densities *)

Section ClosedForm.
Context {T : Type} `{Scalar T}.

(** Basis functions [i] and [j] both lie in the range of atom [atom]. *)
Definition atom_blockb (offs : list nat) (atom i j : nat) : bool :=
  match offs !! atom, offs !! (atom + 1) with
  | Some b, Some e => bool_decide (b ≤ i < e ∧ b ≤ j < e)
  | _, _ => false
  end.

(** [same_atom] as a test. *)
Definition same_atomb (offsets : list nat) (N i j : nat) : bool :=
  existsb (λ atom, atom_blockb (offsets ++ [N]) atom i j)
          (seq 0 (length offsets)).

Definition total_elt (co : CanonicalOrbitalsData (T:=T)) (i j : nat) : T :=
  add (CtC (alphaCoefficients co) (nAlpha co) i j)
      (CtC (betaCoefficients co) (nBeta co) i j).

Definition diatomic_elt (co : CanonicalOrbitalsData (T:=T)) (i j : nat) : T :=
  if same_atomb (basisAtomOffsets co) (nBasis co) i j then zero
  else total_elt co i j.

(** The six densities written without loops or storage. *)
Definition densities_spec (co : CanonicalOrbitalsData (T:=T)) : list Density :=
  let N := nBasis co in
  six_densities
    (matrix_of N N (CtC (alphaCoefficients co) (nAlpha co)))
    (matrix_of N N (CtC (betaCoefficients co) (nBeta co)))
    (matrix_of N N (total_elt co))
    (matrix_of N N (λ i j, sub (CtC (alphaCoefficients co) (nAlpha co) i j)
                               (CtC (betaCoefficients co) (nBeta co) i j)))
    (matrix_of N N (diatomic_elt co))
    (matrix_of N N (λ i j, sub (total_elt co i j) (diatomic_elt co i j))).

End ClosedForm.

(** ** Labels of surfaces: [description]

    Data::SurfaceInfo and Data::SurfaceType are declared outside this file;
    the records keep the parts [description] reads. *)

Record SurfaceType := mkSurfaceType {
  st_kind : SurfaceKind;
  st_index : nat;
}.

Record SurfaceInfo := mkSurfaceInfo {
  si_type : SurfaceType;
  si_isovalue : float;
}.

(** The line feed of the string literals. *)
Definition LF : string := String (Ascii.ascii_of_nat 10) "".

Section Description.
(** [SurfaceType::isOrbital()] and [SurfaceType::toString()]. *)
Variable isOrbital : SurfaceType → bool.
Variable toString : SurfaceType → string.
(** [Data::CanonicalOrbitals::label(index, isAlpha)] and the two orbital
    energy tables of the data object. *)
Variable orbitalLabel : nat → bool → string.
Variable dataAlphaOrbitalEnergy : nat → float.
Variable dataBetaOrbitalEnergy : nat → float.
(** [QString::number(x, 'f', 3)]. *)
Variable number_f_3 : float → string.

(** Lines 47-57: both accessors hand the request to the data object. *)
Definition alphaOrbitalEnergy (i : nat) : float := dataAlphaOrbitalEnergy i.
Definition betaOrbitalEnergy (i : nat) : float := dataBetaOrbitalEnergy i.

Definition description (info : SurfaceInfo) (tooltip : bool) : string :=
  let type := si_type info in
  let label :=
    if isOrbital type then
      let index := st_index type in
      let isAlpha := bool_decide (st_kind type = AlphaOrbital) in
      let label := orbitalLabel index isAlpha in
      if tooltip then
        let orbitalEnergy :=
          if isAlpha then dataAlphaOrbitalEnergy index
          else dataBetaOrbitalEnergy index in
        label +:+ (LF +:+ "Energy   = ") +:+ number_f_3 orbitalEnergy
      else label
    else toString type in
  if tooltip
  then label +:+ (LF +:+ "Isovalue = ") +:+ number_f_3 (si_isovalue info)
  else label.

End Description.

(** ** What reaches the layer between its calls

    The job runs beside the layer and owns the histogram [m_values] it was
    handed at line 183; its code (GridProduct) is outside this file.
    Whatever it writes there is an event of its own, with the written
    contents arbitrary; the grid store, too, may hold other grids at each
    request. *)

Section Signals.
Context {T : Type} {GridData HistValue : Type}.
Variable totalProgress : GridProduct (GridData:=GridData) → Z.

(** The job, or its construction or start, leaves [values] in the
    histogram of the layer. *)
Definition job_writes (values : list HistValue)
    (w : World (T:=T) (GridData:=GridData) (HistValue:=HistValue)) : World :=
  mkWorld
    (mkLayer (m_canonicalOrbitals (this w)) (m_availableDensities (this w))
             (m_progressDialog (this w)) (m_gridProduct (this w)) values)
    (gridProducts w) (progressDialogs w) (connections w) (qlog w).

(** A request for the first-order density, made while the grid store
    answers [findGrids]; a write of the job into the histogram; the
    [finished()] signal of a job. *)
Inductive Event :=
  | RequestFirstOrderDensity (findGrids : SurfaceKind → list GridData)
  | JobWrites (values : list HistValue)
  | JobFinished.

Definition deliver (e : Event)
    (w : World (T:=T) (GridData:=GridData) (HistValue:=HistValue)) :
    option World :=
  match e with
  | RequestFirstOrderDensity findGrids =>
      Some (computeFirstOrderDensityMatrix findGrids totalProgress w)
  | JobWrites values => Some (job_writes values w)
  | JobFinished => firstOrderDensityMatrixFinished w
  end.

Fixpoint deliver_all (es : list Event)
    (w : World (T:=T) (GridData:=GridData) (HistValue:=HistValue)) :
    option World :=
  match es with
  | [] => Some w
  | e :: es' => w' ← deliver e w; deliver_all es' w'
  end.

(** The connections made for the jobs [0 .. n-1]: job [k] reports to
    dialog [k] and to the slot of the layer. *)
Definition connections_of (n : nat) : list Connection :=
  flat_map (λ k, [progressValue_setValue k k;
                  finished_firstOrderDensityMatrixFinished k]) (seq 0 n).

(** What holds of the jobs and dialogs in every state the layer reaches. *)
Definition jobs_consistent
    (w : World (T:=T) (GridData:=GridData) (HistValue:=HistValue)) : Prop :=
  let n := length (gridProducts w) in
  length (progressDialogs w) = n ∧
  connections w = connections_of n ∧
  Forall (λ g, gp_started g = true ∧ gp_binSize g = binSize ∧
               length (gp_grids g) = nAlpha (m_canonicalOrbitals (this w)))
         (gridProducts w) ∧
  m_gridProduct (this w) = (if decide (n = 0) then None else Some (n - 1)) ∧
  (m_progressDialog (this w) = None ∨
   (0 < n ∧ m_progressDialog (this w) = Some (n - 1))).

(** The parts of the layer neither a signal nor the job touches. *)
Definition same_data
    (w w' : World (T:=T) (GridData:=GridData) (HistValue:=HistValue)) : Prop :=
  m_canonicalOrbitals (this w') = m_canonicalOrbitals (this w) ∧
  m_availableDensities (this w') = m_availableDensities (this w).

End Signals.

(** [computeDensityVectors] runs to its end on [l] and appends the six
    densities with the given matrices. *)
Definition appends_six {T : Type} `{Scalar T} {HistValue : Type}
    (junk : nat → T) (l : Layer (T:=T) (HistValue:=HistValue))
    (Pa Pb Tot Spin Dia Atm : Matrix T) : Prop :=
  computeDensityVectors junk l
    = Some (append_density l (six_densities Pa Pb Tot Spin Dia Atm)).

(** Element [(i, j)] equals element [(j, i)] below [N]. *)
Definition symmetric {T : Type} `{Scalar T} (N : nat) (M : Matrix T) : Prop :=
  ∀ i j, i < N → j < N → elt M i j = elt M j i.

(** Binary64 arithmetic: the overflowing coefficients of
    [ex_double_overflow], without any atom. *)
Definition ex_double_no_atoms : CanonicalOrbitalsData (T:=float) :=
  mkData Canonical 2 1 0
    (mkMatrix 1 2 [1e200; 1e200]%float)
    (mkMatrix 0 2 [])
    [] [].

Definition ex_double_no_atoms_layer : Layer (T:=float) (HistValue:=unit) :=
  mkLayer ex_double_no_atoms [] None None [].

(** * Properties *)

(** ** Loops *)

Lemma for_loop_inv {St : Type} (P : nat → St → Prop) (body : nat → St → option St)
    (count i : nat) (s : St) :
  P i s →
  (∀ k t, i ≤ k < i + count → P k t → ∃ t', body k t = Some t' ∧ P (k + 1) t') →
  ∃ s', for_loop count i body s = Some s' ∧ P (i + count) s'.
Proof.
  revert i s. induction count as [|count IH]; intros i s Hs Hbody; simpl.
  - exists s. by rewrite Nat.add_0_r.
  - destruct (Hbody i s) as (t & -> & Ht); [lia | done |]. simpl.
    destruct (IH (i + 1) t) as (s' & -> & Hs'); [done | |].
    + intros k u Hk. apply Hbody. lia.
    + exists s'. split; [done |]. by replace (i + S count) with (i + 1 + count) by lia.
Qed.

Lemma for_range_inv {St : Type} (P : nat → St → Prop) (body : nat → St → option St)
    (lo hi : nat) (s : St) :
  P lo s →
  (∀ k t, lo ≤ k < hi → P k t → ∃ t', body k t = Some t' ∧ P (k + 1) t') →
  ∃ s', for_range lo hi body s = Some s' ∧ P (lo + (hi - lo)) s'.
Proof.
  intros Hs Hbody. apply for_loop_inv; [done |].
  intros k t Hk. apply Hbody. lia.
Qed.

(** ** Matrices *)

Section MatrixFacts.
Context {T : Type} `{Scalar T}.
Implicit Types A B M : Matrix T.

Lemma index_inj (m i j i' j' : nat) :
  j < m → j' < m → i * m + j = i' * m + j' → i = i' ∧ j = j'.
Proof.
  intros Hj Hj' Heq.
  assert (i = (i * m + j) / m) as Hi by (apply (Nat.div_unique _ _ _ j); lia).
  assert (i' = (i' * m + j') / m) as Hi' by (apply (Nat.div_unique _ _ _ j'); lia).
  rewrite Heq in Hi. assert (i = i') by congruence. subst i'. lia.
Qed.

Lemma matrix_of_wf n m (f : nat → nat → T) : wf (matrix_of n m f).
Proof. unfold wf, matrix_of; simpl. by rewrite length_fmap, length_seq. Qed.

Lemma matrix_of_elt n m (f : nat → nat → T) i j :
  i < n → j < m → elt (matrix_of n m f) i j = f i j.
Proof.
  intros Hi Hj. unfold elt, matrix_of; simpl.
  rewrite list_lookup_fmap, lookup_seq_lt by nia. simpl.
  f_equal.
  - symmetry. apply (Nat.div_unique _ _ _ j); lia.
  - symmetry. apply (Nat.mod_unique _ _ i); lia.
Qed.

Lemma Matrix_new_wf junk n m : wf (Matrix_new (T:=T) junk n m).
Proof. unfold wf, Matrix_new; simpl. by rewrite length_fmap, length_seq. Qed.

Lemma in_range_true A i j : in_range A i j = true ↔ i < size1 A ∧ j < size2 A.
Proof.
  unfold in_range. rewrite andb_true_iff, !bool_decide_eq_true. done.
Qed.

Lemma at_Some A i j : i < size1 A → j < size2 A → at_ A i j = Some (elt A i j).
Proof.
  intros Hi Hj. unfold at_.
  by rewrite (proj2 (in_range_true A i j)).
Qed.

Lemma set_at_spec A i j v :
  wf A → i < size1 A → j < size2 A →
  ∃ A', set_at A i j v = Some A' ∧ wf A' ∧
    size1 A' = size1 A ∧ size2 A' = size2 A ∧
    elt A' i j = v ∧
    ∀ i' j', j' < size2 A → (i', j') ≠ (i, j) → elt A' i' j' = elt A i' j'.
Proof.
  intros Hwf Hi Hj. unfold set_at.
  rewrite (proj2 (in_range_true A i j)) by done.
  eexists; split; [done |]. unfold wf, elt in *; simpl.
  rewrite length_insert. repeat split; try done.
  - rewrite list_lookup_insert_eq; [done | nia].
  - intros i' j' Hj' Hne. rewrite list_lookup_insert_ne; [done |].
    intros Heq. apply index_inj in Heq as [-> ->]; done.
Qed.

Lemma overwritten_refl A g : wf A → overwritten A g (λ _ _, False) A.
Proof. intros Hwf. repeat split; try done. Qed.

Lemma overwritten_ext A g (P Q : nat → nat → Prop) M :
  (∀ i j, i < size1 A → j < size2 A → P i j ↔ Q i j) →
  overwritten A g P M → overwritten A g Q M.
Proof.
  intros HPQ (Hwf & H1 & H2 & Helt). repeat split; try done.
  - intros HQ. apply Helt; [done.. |]. by apply HPQ.
  - intros HQ. apply Helt; [done.. |]. intros HP. apply HQ. by apply HPQ.
Qed.

(** The loop nest [for i in [a,b): for j in [c,d): M(i,j) = g(i,j)]. *)
Lemma fill_rect (g : nat → nat → option T) A a b c d :
  wf A →
  (a < b → b ≤ size1 A) → (c < d → d ≤ size2 A) →
  (∀ i j, a ≤ i < b → c ≤ j < d → is_Some (g i j)) →
  ∃ M, for_range a b (λ i,
         for_range c d (λ j M', v ← g i j; set_at M' i j v)) A = Some M ∧
       overwritten A g (λ i j, a ≤ i < b ∧ c ≤ j < d) M.
Proof.
  intros Hwf Hb Hd Hg.
  destruct (for_range_inv
    (λ k M, overwritten A g (λ i j, a ≤ i < k ∧ c ≤ j < d) M)
    (λ i, for_range c d (λ j M', v ← g i j; set_at M' i j v)) a b A)
    as (M & HM & Hov).
  - eapply overwritten_ext; [| by apply overwritten_refl]. intros; simpl; lia.
  - intros i M Hi Hov.
    destruct (for_range_inv
      (λ k M', overwritten A g
         (λ i' j', (a ≤ i' < i ∧ c ≤ j' < d) ∨ (i' = i ∧ c ≤ j' < k)) M')
      (λ j M', v ← g i j; set_at M' i j v) c d M) as (M' & HM' & Hov').
    + eapply overwritten_ext; [| exact Hov]. intros; simpl; lia.
    + intros j M' Hj (Hwf' & H1 & H2 & Helt).
      destruct (Hg i j) as [v Hv]; [lia.. |]. rewrite Hv; simpl.
      destruct (set_at_spec M' i j v) as (M'' & -> & Hwf'' & H1' & H2' & Hij & Hother);
        [done | lia | lia |].
      exists M''. split; [done |]. repeat split; try congruence.
      * intros Hfill. destruct (decide ((i0, j0) = (i, j))) as [[= -> ->] | Hne].
        { by rewrite Hij. }
        rewrite Hother by (done || lia). apply Helt; [done.. |].
        destruct Hfill as [? | [-> ?]]; [by left |].
        right. split; [done |]. assert (j0 ≠ j) by congruence. lia.
      * intros Hnot. rewrite Hother.
        { apply Helt; [done.. |]. intros [? | [? ?]]; apply Hnot; [by left | right; lia]. }
        { lia. }
        { intros [= -> ->]. apply Hnot. right. lia. }
    + exists M'. split; [done |].
      eapply overwritten_ext; [| exact Hov']. intros; simpl; lia.
  - exists M. split; [done |].
    eapply overwritten_ext; [| exact Hov]. intros; simpl; lia.
Qed.

End MatrixFacts.

(** ** The pieces of [computeDensityVectors] *)

Section ProgramFacts.
Context {T : Type} `{Scalar T}.
Implicit Types A B C M P : Matrix T.

Lemma foldl_sum_below (f : nat → T) n :
  foldl (λ t k, add t (f k)) zero (seq 0 n) = sum_below n f.
Proof.
  induction n as [|n IH]; [done |].
  rewrite seq_S, foldl_app; simpl. by rewrite IH.
Qed.

Lemma sum_below_ext (f g : nat → T) n :
  (∀ k, k < n → f k = g k) → sum_below n f = sum_below n g.
Proof.
  induction n as [|n IH]; intros Hfg; simpl; [done |].
  rewrite IH, Hfg; [done | lia |]. intros k Hk. apply Hfg. lia.
Qed.

Lemma copy_coefficients_spec A rows N C :
  wf A → rows ≤ size1 A → N ≤ size2 A →
  wf C → size1 C = rows → size2 C = N →
  ∃ C', copy_coefficients A rows N C = Some C' ∧ wf C' ∧
    size1 C' = rows ∧ size2 C' = N ∧
    ∀ i j, i < rows → j < N → elt C' i j = elt A i j.
Proof.
  intros HwfA Hrows HN HwfC H1 H2. unfold copy_coefficients.
  destruct (fill_rect (at_ A) C 0 rows 0 N) as (C' & -> & Hwf & H1' & H2' & Helt);
    [done | lia | lia | |].
  - intros i j Hi Hj. rewrite at_Some by lia. done.
  - exists C'. repeat split; [done | lia | lia |].
    intros i j Hi Hj. destruct (Helt i j) as [Hin _]; [lia.. |].
    rewrite at_Some in Hin by lia. injection Hin; [|lia]. done.
Qed.

Lemma density_of_spec (junk : nat → T) C rows N :
  size1 C = rows → size2 C = N →
  ∃ P, density_of junk C N = Some P ∧ square N P ∧
    ∀ i j, i < N → j < N → elt P i j = CtC C rows i j.
Proof.
  intros H1 H2. unfold density_of, prod, noalias_assign, same_shape.
  rewrite bool_decide_eq_true_2 by (simpl; lia). simpl.
  rewrite !bool_decide_eq_true_2 by (simpl; lia). simpl.
  eexists; split; [done |]. split.
  - split; [apply matrix_of_wf |]. simpl. lia.
  - intros i j Hi Hj. rewrite matrix_of_elt by (simpl; lia).
    unfold prod_elt, CtC. simpl. rewrite foldl_sum_below, H1.
    apply sum_below_ext. intros k Hk.
    unfold trans. rewrite matrix_of_elt by lia. done.
Qed.

Lemma madd_spec P Q N :
  square N P → square N Q →
  ∃ R, madd P Q = Some R ∧ square N R ∧
    ∀ i j, i < N → j < N → elt R i j = add (elt P i j) (elt Q i j).
Proof.
  intros (_ & H1 & H2) (_ & H1' & H2'). unfold madd, same_shape.
  rewrite !bool_decide_eq_true_2 by lia. simpl.
  eexists; split; [done |]. split.
  - split; [apply matrix_of_wf |]. simpl. lia.
  - intros i j Hi Hj. by rewrite matrix_of_elt by lia.
Qed.

Lemma msub_spec P Q N :
  square N P → square N Q →
  ∃ R, msub P Q = Some R ∧ square N R ∧
    ∀ i j, i < N → j < N → elt R i j = sub (elt P i j) (elt Q i j).
Proof.
  intros (_ & H1 & H2) (_ & H1' & H2'). unfold msub, same_shape.
  rewrite !bool_decide_eq_true_2 by lia. simpl.
  eexists; split; [done |]. split.
  - split; [apply matrix_of_wf |]. simpl. lia.
  - intros i j Hi Hj. by rewrite matrix_of_elt by lia.
Qed.

Lemma overwritten_trans A g (P Q : nat → nat → Prop) M M' :
  (∀ i j, Decision (Q i j)) →
  overwritten A g P M → overwritten M g Q M' →
  overwritten A g (λ i j, P i j ∨ Q i j) M'.
Proof.
  intros Hdec (Hwf & H1 & H2 & Helt) (Hwf' & H1' & H2' & Helt').
  repeat split; try congruence.
  - intros HPQ. destruct (decide (Q i j)) as [HQ | HQ].
    + apply Helt'; [lia.. | done].
    + destruct (Helt' i j) as [_ Hn]; [lia.. |]. rewrite Hn by done.
      apply Helt; [done.. |]. by destruct HPQ.
  - intros HPQ. destruct (Helt' i j) as [_ Hn]; [lia.. |]. rewrite Hn by tauto.
    apply Helt; [done.. | tauto].
Qed.

Lemma zero_atom_blocks_spec (offsets : list nat) N M :
  square N M → Forall (λ o, o ≤ N) offsets →
  ∃ M', zero_atom_blocks (offsets ++ [N]) (length offsets) M = Some M' ∧
    overwritten M (λ _ _, Some zero) (same_atom offsets N) M'.
Proof.
  intros (Hwf & H1 & H2) Hoff. unfold zero_atom_blocks.
  assert (Forall (λ o, o ≤ N) (offsets ++ [N])) as Hall.
  { apply Forall_app. split; [done |]. by apply Forall_singleton. }
  destruct (for_range_inv
    (λ k M', overwritten M (λ _ _, Some zero)
       (λ i j, ∃ atom b e, atom < k ∧
          (offsets ++ [N]) !! atom = Some b ∧
          (offsets ++ [N]) !! (atom + 1) = Some e ∧
          b ≤ i < e ∧ b ≤ j < e) M')
    (λ atom M,
      begin ← (offsets ++ [N]) !! atom;
      end_ ← (offsets ++ [N]) !! (atom + 1);
      for_range begin end_ (λ i,
        for_range begin end_ (λ j M', set_at M' i j zero)) M)
    0 (length offsets) M) as (M' & HM' & Hov).
  - eapply overwritten_ext; [| by apply overwritten_refl].
    intros i j _ _. split; [done |]. intros (? & ? & ? & ? & _). lia.
  - intros k M' Hk Hov.
    destruct (lookup_lt_is_Some_2 (offsets ++ [N]) k) as [b Hb].
    { rewrite length_app; simpl. lia. }
    destruct (lookup_lt_is_Some_2 (offsets ++ [N]) (k + 1)) as [e He].
    { rewrite length_app; simpl. lia. }
    rewrite Hb, He; simpl.
    pose proof (Forall_lookup_1 _ _ _ _ Hall He) as HeN. simpl in HeN.
    pose proof Hov as (Hwf' & H1' & H2' & _).
    destruct (fill_rect (λ _ _, Some zero) M' b e b e) as (M'' & HM'' & Hov'');
      [done | lia | lia | by eexists |].
    exists M''. split; [exact HM'' |].
    eapply overwritten_ext;
      [| eapply (overwritten_trans M _ _ _ M' M''); [| exact Hov | exact Hov'']].
    + intros i j _ _. simpl. split.
      * intros [(atom & b' & e' & ? & ? & ? & ?) | ?].
        { exists atom, b', e'. repeat split; try done; lia. }
        { exists k, b, e. repeat split; try done; lia. }
      * intros (atom & b' & e' & Hlt & Hb' & He' & ?).
        destruct (decide (atom = k)) as [-> | Hne].
        { right. rewrite Hb in Hb'. rewrite He in He'. simplify_eq. lia. }
        { left. exists atom, b', e'. repeat split; try done; lia. }
    + intros i j. apply _.
  - exists M'. split; [done |].
    eapply overwritten_ext; [| exact Hov].
    intros i j _ _. unfold same_atom. split.
    + intros (atom & b & e & ? & ?). exists atom, b, e. split; [lia | done].
    + intros (atom & b & e & ? & ?). exists atom, b, e. split; [lia | done].
Qed.

Lemma CtC_ext A C rows N i j :
  (∀ k c, k < rows → c < N → elt C k c = elt A k c) →
  i < N → j < N → CtC C rows i j = CtC A rows i j.
Proof.
  intros Heq Hi Hj. apply sum_below_ext. intros k Hk.
  by rewrite !Heq by done.
Qed.

(** On valid input [computeDensityVectors] runs to its end and appends the
    six densities. *)
Lemma computeDensityVectors_spec (junk : nat → T) {HistValue : Type}
    (l : Layer (HistValue:=HistValue)) :
  valid_input (m_canonicalOrbitals l) →
  ∃ Pa Pb Tot Spin Dia Atm,
    computeDensityVectors junk l
      = Some (append_density l (six_densities Pa Pb Tot Spin Dia Atm)) ∧
    densities_of (m_canonicalOrbitals l) Pa Pb Tot Spin Dia Atm.
Proof.
  intros (HwfA & HNa & HNA & HwfB & HNb & HNB & Hoff).
  unfold computeDensityVectors.
  set (co := m_canonicalOrbitals l) in *. set (N := nBasis co) in *.
  destruct (copy_coefficients_spec (alphaCoefficients co) (nAlpha co) N
              (Matrix_new junk (nAlpha co) N))
    as (Ca & -> & HwfCa & HCa1 & HCa2 & HCa); [done.. | apply Matrix_new_wf | done | done |].
  simpl.
  destruct (density_of_spec junk Ca (nAlpha co) N) as (Pa & -> & HsqPa & HPa); [done.. |].
  simpl.
  destruct (copy_coefficients_spec (betaCoefficients co) (nBeta co) N
              (resize junk Ca (nBeta co) N))
    as (Cb & -> & HwfCb & HCb1 & HCb2 & HCb); [done.. | apply matrix_of_wf | done | done |].
  simpl.
  destruct (density_of_spec junk Cb (nBeta co) N) as (Pb & -> & HsqPb & HPb); [done.. |].
  simpl.
  destruct (madd_spec Pa Pb N) as (Tot & -> & HsqTot & HTot); [done.. |]. simpl.
  destruct (msub_spec Pa Pb N) as (Spin & -> & HsqSpin & HSpin); [done.. |]. simpl.
  destruct (zero_atom_blocks_spec (basisAtomOffsets co) N Tot)
    as (Dia & -> & HDia); [done.. |]. simpl.
  assert (square N Dia) as HsqDia.
  { destruct HDia as (? & ? & ? & _), HsqTot as (? & ? & ?). repeat split; congruence. }
  destruct (msub_spec Tot Dia N) as (Atm & -> & HsqAtm & HAtm); [done.. |]. simpl.
  exists Pa, Pb, Tot, Spin, Dia, Atm. split.
  - unfold append_density, six_densities; simpl. by rewrite <- !app_assoc.
  - unfold densities_of. fold co. fold N.
    refine (conj HsqPa (conj HsqPb (conj HsqTot (conj HsqSpin
             (conj HsqDia (conj HsqAtm (conj _ HDia))))))).
    intros i j Hi Hj. split_and!.
    + rewrite HPa by done. by apply (CtC_ext _ _ _ N).
    + rewrite HPb by done. by apply (CtC_ext _ _ _ N).
    + by apply HTot.
    + by apply HSpin.
    + rewrite HAtm, HTot by done. done.
Qed.

End ProgramFacts.

(** ** Binary64 arithmetic *)

Lemma SFmul_comm prec emax x y :
  SpecFloat.SFmul prec emax x y = SpecFloat.SFmul prec emax y x.
Proof.
  destruct x as [sx|sx| |sx mx ex], y as [sy|sy| |sy my ey]; simpl; try reflexivity;
    rewrite ?(xorb_comm sx sy); try reflexivity.
  by rewrite (Pos.mul_comm mx my), (Z.add_comm ex ey).
Qed.

(** The product of two doubles does not depend on their order. *)
Lemma float_mul_comm (x y : float) : PrimFloat.mul x y = PrimFloat.mul y x.
Proof. apply Prim2SF_inj. rewrite !mul_spec. apply SFmul_comm. Qed.

Lemma SFsub_zero_r prec emax x :
  SpecFloat.SFsub prec emax x (S754_zero false) = x.
Proof. by destruct x as [[|]|[|]| |sx mx ex]. Qed.

(** Subtracting +0 from a double gives the same double, for every double. *)
Lemma float_sub_zero_r (x : float) : PrimFloat.sub x PrimFloat.zero = x.
Proof.
  apply Prim2SF_inj. rewrite sub_spec.
  change (Prim2SF PrimFloat.zero) with (S754_zero false). apply SFsub_zero_r.
Qed.

Lemma is_finite_SF (x : float) :
  is_finite x = true →
  match Prim2SF x with S754_zero _ | S754_finite _ _ _ => True | _ => False end.
Proof.
  unfold is_finite, is_nan, is_infinity.
  rewrite !FloatAxioms.eqb_spec, abs_spec.
  change (Prim2SF infinity) with (S754_infinity false).
  by destruct (Prim2SF x) as [[|]|[|]| |sx mx ex].
Qed.

Lemma SFeqb_finite_refl s m e :
  SFeqb (S754_finite s m e) (S754_finite s m e) = true.
Proof.
  unfold SFeqb, SFcompare.
  destruct s; rewrite Z.compare_refl, Pos.compare_cont_refl; done.
Qed.

(** [0 + t == t] for a finite double [t], [==] being the comparison of
    IEEE 754 (it does not tell -0 from +0). *)
Lemma float_zero_add_eqb (t : float) :
  is_finite t = true → PrimFloat.eqb (PrimFloat.add PrimFloat.zero t) t = true.
Proof.
  intros Hfin%is_finite_SF. rewrite FloatAxioms.eqb_spec, add_spec.
  change (Prim2SF PrimFloat.zero) with (S754_zero false).
  destruct (Prim2SF t) as [s|s| |s m e]; try done.
  - by destruct s.
  - apply SFeqb_finite_refl.
Qed.

(** [t + (t - t) == t] for a finite double [t]. *)
Lemma float_add_sub_diag_eqb (t : float) :
  is_finite t = true →
  PrimFloat.eqb (PrimFloat.add t (PrimFloat.sub t t)) t = true.
Proof.
  intros Hfin%is_finite_SF. rewrite FloatAxioms.eqb_spec, add_spec, sub_spec.
  destruct (Prim2SF t) as [s|s| |s m e]; try done.
  - by destruct s.
  - unfold SF64sub, SpecFloat.SFsub. rewrite Z.sub_diag. simpl.
    apply SFeqb_finite_refl.
Qed.

(** ** Density matrices *)

Lemma CtC_sym {T : Type} `{Scalar T} (mul_comm : ∀ x y : T, mul x y = mul y x) (C : Matrix T) rows i j :
  CtC C rows i j = CtC C rows j i.
Proof. apply sum_below_ext. intros k _. apply mul_comm. Qed.

Section DensityClaims.
Context {T : Type} `{Scalar T}.
Variable junk : nat → T.
Context {HistValue : Type}.
Implicit Types l : Layer (T:=T) (HistValue:=HistValue).

(** C1. On a coefficient matrix with exactly the occupied rows and the N
    columns, the density built is the N x N matrix Cᵗ·C, for alpha and for
    beta; and at N = 3 with occupied alpha rows [[1,0,0],[0,1,0]], in
    binary64 arithmetic, the alpha density is diag(1,1,0), whatever the
    fresh storage held. *)
Theorem C1_density_is_CtC :
  (∀ l, valid_input (m_canonicalOrbitals l) →
        size1 (alphaCoefficients (m_canonicalOrbitals l)) = nAlpha (m_canonicalOrbitals l) →
        size2 (alphaCoefficients (m_canonicalOrbitals l)) = nBasis (m_canonicalOrbitals l) →
        size1 (betaCoefficients (m_canonicalOrbitals l)) = nBeta (m_canonicalOrbitals l) →
        size2 (betaCoefficients (m_canonicalOrbitals l)) = nBasis (m_canonicalOrbitals l) →
     ∃ Pa Pb Tot Spin Dia Atm,
       computeDensityVectors junk l
         = Some (append_density l (six_densities Pa Pb Tot Spin Dia Atm)) ∧
       square (nBasis (m_canonicalOrbitals l)) Pa ∧
       square (nBasis (m_canonicalOrbitals l)) Pb ∧
       ∀ i j, i < nBasis (m_canonicalOrbitals l) → j < nBasis (m_canonicalOrbitals l) →
         elt Pa i j = CtC (alphaCoefficients (m_canonicalOrbitals l))
                          (size1 (alphaCoefficients (m_canonicalOrbitals l))) i j ∧
         elt Pb i j = CtC (betaCoefficients (m_canonicalOrbitals l))
                          (size1 (betaCoefficients (m_canonicalOrbitals l))) i j) ∧
  (∀ garbage : nat → float,
     (l' ← computeDensityVectors garbage ex_double_layer;
      m_availableDensities l' !! 0)
     = Some (mkDensity AlphaDensity diag_1_1_0 "Alpha Density")).
Proof.
  split.
  - intros l Hvalid HA1 HA2 HB1 HB2.
    destruct (computeDensityVectors_spec junk l Hvalid)
      as (Pa & Pb & Tot & Spin & Dia & Atm & Hrun & HPa & HPb & _ & _ & _ & _ & Helt & _).
    exists Pa, Pb, Tot, Spin, Dia, Atm. rewrite HA1, HB1.
    split_and!; [done.. |]. intros i j Hi Hj.
    destruct (Helt i j Hi Hj) as (HPa' & HPb' & _). by split.
  - intros garbage. vm_compute. reflexivity.
Qed.

(** C2. On valid alpha and beta coefficients the total density is the
    elementwise sum of the alpha and beta densities and the spin density is
    their elementwise difference. *)
Theorem C2_total_and_spin l :
  valid_input (m_canonicalOrbitals l) →
  ∃ Pa Pb Tot Spin Dia Atm,
    computeDensityVectors junk l
      = Some (append_density l (six_densities Pa Pb Tot Spin Dia Atm)) ∧
    square (nBasis (m_canonicalOrbitals l)) Tot ∧
    square (nBasis (m_canonicalOrbitals l)) Spin ∧
    ∀ i j, i < nBasis (m_canonicalOrbitals l) → j < nBasis (m_canonicalOrbitals l) →
      elt Tot i j = add (elt Pa i j) (elt Pb i j) ∧
      elt Spin i j = sub (elt Pa i j) (elt Pb i j).
Proof.
  intros Hvalid.
  destruct (computeDensityVectors_spec junk l Hvalid)
    as (Pa & Pb & Tot & Spin & Dia & Atm & Hrun & _ & _ & HTot & HSpin & _ & _ & Helt & _).
  exists Pa, Pb, Tot, Spin, Dia, Atm.
  split_and!; [done.. |]. intros i j Hi Hj.
  destruct (Helt i j Hi Hj) as (_ & _ & HTot' & HSpin' & _). by split.
Qed.

(** C4. With a commutative scalar product, the alpha and the beta density
    built from any valid coefficient matrices are symmetric. *)
Theorem C4_density_symmetric (mul_comm : ∀ x y : T, mul x y = mul y x) l :
  valid_input (m_canonicalOrbitals l) →
  ∃ Pa Pb Tot Spin Dia Atm,
    computeDensityVectors junk l
      = Some (append_density l (six_densities Pa Pb Tot Spin Dia Atm)) ∧
    square (nBasis (m_canonicalOrbitals l)) Pa ∧
    square (nBasis (m_canonicalOrbitals l)) Pb ∧
    ∀ i j, i < nBasis (m_canonicalOrbitals l) → j < nBasis (m_canonicalOrbitals l) →
      elt Pa i j = elt Pa j i ∧ elt Pb i j = elt Pb j i.
Proof.
  intros Hvalid.
  destruct (computeDensityVectors_spec junk l Hvalid)
    as (Pa & Pb & Tot & Spin & Dia & Atm & Hrun & HPa & HPb & _ & _ & _ & _ & Helt & _).
  exists Pa, Pb, Tot, Spin, Dia, Atm.
  split_and!; [done.. |]. intros i j Hi Hj.
  destruct (Helt i j Hi Hj) as (Hij & Hij' & _).
  destruct (Helt j i Hj Hi) as (Hji & Hji' & _).
  rewrite Hij, Hij', Hji, Hji'. split; by apply CtC_sym.
Qed.

End DensityClaims.

Ltac valid_by_computation :=
  unfold valid_input, wf; simpl; split_and!;
  try reflexivity; try lia; repeat (constructor; try lia).

Lemma C1_density_is_CtC_witness :
  valid_input (m_canonicalOrbitals ex_layer) ∧
  ∃ Pa Pb Tot Spin Dia Atm,
    computeDensityVectors (λ _, 7%Z) ex_layer
      = Some (append_density ex_layer (six_densities Pa Pb Tot Spin Dia Atm)) ∧
    square 3 Pa ∧ square 3 Pb ∧
    ∀ i j, i < 3 → j < 3 →
      elt Pa i j = CtC (alphaCoefficients ex_data) 2 i j ∧
      elt Pb i j = CtC (betaCoefficients ex_data) 1 i j.
Proof.
  split; [valid_by_computation |].
  apply (proj1 (C1_density_is_CtC (λ _, 7%Z) (HistValue:=unit)) ex_layer);
    [valid_by_computation | reflexivity..].
Defined.

Lemma C2_total_and_spin_witness :
  valid_input (m_canonicalOrbitals ex_layer) ∧
  ∃ Pa Pb Tot Spin Dia Atm,
    computeDensityVectors (λ _, 7%Z) ex_layer
      = Some (append_density ex_layer (six_densities Pa Pb Tot Spin Dia Atm)) ∧
    square 3 Tot ∧ square 3 Spin ∧
    ∀ i j, i < 3 → j < 3 →
      elt Tot i j = (elt Pa i j + elt Pb i j)%Z ∧
      elt Spin i j = (elt Pa i j - elt Pb i j)%Z.
Proof.
  split; [valid_by_computation |].
  refine (C2_total_and_spin (λ _, 7%Z) ex_layer _). valid_by_computation.
Defined.

Lemma C4_density_symmetric_witness :
  valid_input (m_canonicalOrbitals ex_double_layer) ∧
  ∃ Pa Pb Tot Spin Dia Atm,
    computeDensityVectors (λ _, nan) ex_double_layer
      = Some (append_density ex_double_layer (six_densities Pa Pb Tot Spin Dia Atm)) ∧
    square 3 Pa ∧ square 3 Pb ∧
    ∀ i j, i < 3 → j < 3 → elt Pa i j = elt Pa j i ∧ elt Pb i j = elt Pb j i.
Proof.
  split; [valid_by_computation |].
  refine (C4_density_symmetric (H:=float_Scalar) (λ _, nan) float_mul_comm
            ex_double_layer _).
  valid_by_computation.
Defined.

(** ** The constructor *)

Section ConstructorClaims.
Context {T : Type} `{Scalar T}.
Variable junk : nat → T.
Context {HistValue : Type}.

(** C5, as the code has it.  For canonical orbitals on valid input the
    constructor leaves, after what the base class put in the list, the six
    computed densities Alpha, Beta, Total, Spin, MullikenDiatomic,
    MullikenAtomic in that order, and after them the upstream-supplied
    densities. *)
Theorem C5_computed_then_upstream (inherited : list Density)
    (co : CanonicalOrbitalsData (T:=T)) :
  orbitalType co = Canonical → valid_input co →
  ∃ (l : Layer (HistValue:=HistValue)) log Pa Pb Tot Spin Dia Atm,
    CanonicalOrbitals_ctor junk inherited co = Some (l, log) ∧
    m_availableDensities l
      = inherited ++ six_densities Pa Pb Tot Spin Dia Atm ++ densityList co ∧
    densities_of co Pa Pb Tot Spin Dia Atm.
Proof.
  intros Htype Hvalid. unfold CanonicalOrbitals_ctor.
  rewrite decide_True by done.
  destruct (computeDensityVectors_spec junk
              (mkLayer (HistValue:=HistValue) co inherited None None []) Hvalid)
    as (Pa & Pb & Tot & Spin & Dia & Atm & -> & Hdens).
  simpl. eexists _, _, Pa, Pb, Tot, Spin, Dia, Atm.
  split; [done |]. split; [| done]. simpl. by rewrite <- app_assoc.
Qed.

(** C9. For orbitals that are not canonical the constructor computes no
    density: it appends the upstream-supplied densities to what the base
    class put in the list and nothing else, so that a list the base class
    left empty ends up as exactly the upstream list. *)
Theorem C9_not_canonical (inherited : list Density)
    (co : CanonicalOrbitalsData (T:=T)) :
  orbitalType co ≠ Canonical →
  ∃ (l : Layer (HistValue:=HistValue)) log,
    CanonicalOrbitals_ctor junk inherited co = Some (l, log) ∧
    l = mkLayer co (inherited ++ densityList co) None None [] ∧
    (inherited = [] → m_availableDensities l = densityList co).
Proof.
  intros Htype. unfold CanonicalOrbitals_ctor.
  rewrite decide_False by done. simpl.
  eexists _, _. split; [done |]. split; [done |]. by intros ->.
Qed.


End ConstructorClaims.

(** C5 as stated fails: with one upstream density and nothing inherited,
    the list does not start with the upstream density. *)
Lemma C5_upstream_first_fails :
  ¬ ∃ (l : Layer (HistValue:=unit)) log Pa Pb Tot Spin Dia Atm,
      CanonicalOrbitals_ctor (λ _, 7%Z) [] ex_data_upstream = Some (l, log) ∧
      m_availableDensities l
        = densityList ex_data_upstream ++ six_densities Pa Pb Tot Spin Dia Atm.
Proof.
  intros (l & log & Pa & Pb & Tot & Spin & Dia & Atm & Hrun & Hlist).
  vm_compute in Hrun. injection Hrun as <- _.
  simpl in Hlist. discriminate Hlist.
Qed.

Lemma C5_computed_then_upstream_witness :
  orbitalType ex_data_upstream = Canonical ∧ valid_input ex_data_upstream ∧
  ∃ (l : Layer (HistValue:=unit)) log Pa Pb Tot Spin Dia Atm,
    CanonicalOrbitals_ctor (λ _, 7%Z) [] ex_data_upstream = Some (l, log) ∧
    m_availableDensities l
      = [] ++ six_densities Pa Pb Tot Spin Dia Atm ++ [ex_upstream] ∧
    densities_of ex_data_upstream Pa Pb Tot Spin Dia Atm.
Proof.
  split; [reflexivity |]. split; [valid_by_computation |].
  refine (C5_computed_then_upstream (λ _, 7%Z) [] ex_data_upstream _ _);
    [reflexivity | valid_by_computation].
Defined.

Lemma C9_not_canonical_witness :
  orbitalType ex_data_localized ≠ Canonical ∧
  ∃ (l : Layer (HistValue:=unit)) log,
    CanonicalOrbitals_ctor (λ _, 7%Z) [] ex_data_localized = Some (l, log) ∧
    l = mkLayer ex_data_localized ([] ++ [ex_upstream]) None None [] ∧
    (@nil (@Density Z) = [] → m_availableDensities l = [ex_upstream]).
Proof.
  split; [discriminate |].
  refine (C9_not_canonical (λ _, 7%Z) [] ex_data_localized _). discriminate.
Defined.



(** ** The first-order density request *)

Section RequestClaims.
Context {T : Type} {GridData HistValue : Type}.
Variable findGrids : SurfaceKind → list GridData.
Variable totalProgress : GridProduct (GridData:=GridData) → Z.
Implicit Types w : World (T:=T) (GridData:=GridData) (HistValue:=HistValue).

(** [(int)Na] is [Na] or negative, for [Na] an unsigned value. *)
Lemma int_of_unsigned_cases (n : nat) :
  (Z.of_nat n < 2 ^ 32)%Z →
  int_of_unsigned (Z.of_nat n) = Z.of_nat n ∨ (int_of_unsigned (Z.of_nat n) < 0)%Z.
Proof.
  intros Hn. unfold int_of_unsigned.
  rewrite Z.mod_small by lia. case_bool_decide; [by left | right; lia].
Qed.

(** What a request does once the grid count has passed the check. *)
Lemma request_accepted w :
  Z.of_nat (length (findGrids AlphaOrbital))
    = int_of_unsigned (Z.of_nat (nAlpha (m_canonicalOrbitals (this w)))) →
  computeFirstOrderDensityMatrix findGrids totalProgress w
  = mkWorld
      (set_pointers (this w) (Some (length (progressDialogs w)))
                    (Some (length (gridProducts w))))
      (gridProducts w ++ [mkGridProduct (findGrids AlphaOrbital) binSize true])
      (progressDialogs w ++
         [mkDialog NonModal true
            (totalProgress (mkGridProduct (findGrids AlphaOrbital) binSize false))
            false])
      (connections w ++
         [progressValue_setValue (length (gridProducts w)) (length (progressDialogs w));
          finished_firstOrderDensityMatrixFinished (length (gridProducts w))])
      (qlog w ++ [QLogInfo "Starting grid calc"]).
Proof.
  intros Hcount. unfold computeFirstOrderDensityMatrix.
  rewrite bool_decide_eq_false_2 by (intros Hne; by apply Hne).
  f_equal.
  replace (length (gridProducts w)) with (length (gridProducts w) + 0) at 1 by lia.
  by rewrite alter_app_r.
Qed.

(** C7. When the number of alpha orbital grids found differs from the
    occupied alpha count (an unsigned value), the request is turned down:
    the error "Not all orbitals available" is logged, no job and no dialog
    is created, and the layer is unchanged. *)
Theorem C7_incomplete_orbital_set w :
  (Z.of_nat (nAlpha (m_canonicalOrbitals (this w))) < 2 ^ 32)%Z →
  length (findGrids AlphaOrbital) ≠ nAlpha (m_canonicalOrbitals (this w)) →
  computeFirstOrderDensityMatrix findGrids totalProgress w
    = mkWorld (this w) (gridProducts w) (progressDialogs w) (connections w)
              (qlog w ++ [QLogError "Not all orbitals available"]) ∧
  request_rejected w (computeFirstOrderDensityMatrix findGrids totalProgress w).
Proof.
  intros Hrange Hne.
  assert (computeFirstOrderDensityMatrix findGrids totalProgress w
    = mkWorld (this w) (gridProducts w) (progressDialogs w) (connections w)
              (qlog w ++ [QLogError "Not all orbitals available"])) as ->.
  { unfold computeFirstOrderDensityMatrix.
    rewrite bool_decide_eq_true_2; [done |].
    destruct (int_of_unsigned_cases _ Hrange) as [-> | Hneg]; lia. }
  split; [done |]. unfold request_rejected; simpl. split_and!; [done.. |].
  by eexists.
Qed.


(** C10. Every job a request starts is built with the bin width 0.1, the
    binary64 constant of the program text, and the slot that reports the
    histogram labels bin [i] with [i * 0.1]; neither function takes a bin
    width from its caller. *)
Theorem C10_bin_width_is_fixed :
  (∀ w,
     Z.of_nat (length (findGrids AlphaOrbital))
       = int_of_unsigned (Z.of_nat (nAlpha (m_canonicalOrbitals (this w)))) →
     ∃ job g,
       m_gridProduct (this (computeFirstOrderDensityMatrix findGrids totalProgress w))
         = Some job ∧
       gridProducts (computeFirstOrderDensityMatrix findGrids totalProgress w) !! job
         = Some g ∧
       gridProducts w !! job = None ∧
       gp_started g = true ∧ gp_binSize g = 0.1%float) ∧
  (∀ w w', firstOrderDensityMatrixFinished w = Some w' →
     qlog w' = qlog w ++
       imap (λ i v, QDebugBin
               (PrimFloat.mul (PrimFloat.of_uint63 (Uint63.of_Z (Z.of_nat i)))
                              0.1%float) v)
            (m_values (this w))).
Proof.
  split.
  - intros w Hcount. rewrite (request_accepted w Hcount). simpl.
    exists (length (gridProducts w)),
      (mkGridProduct (findGrids AlphaOrbital) binSize true).
    split_and!; [done | | | done | done].
    + rewrite lookup_app_r by lia. by rewrite Nat.sub_diag.
    + by apply lookup_ge_None_2.
  - intros w w'. unfold firstOrderDensityMatrixFinished.
    destruct (m_progressDialog (this w)); simpl; [| done].
    by intros [= <-].
Qed.

End RequestClaims.

Lemma C7_incomplete_orbital_set_witness :
  (Z.of_nat (nAlpha (m_canonicalOrbitals (this ex_world_idle))) < 2 ^ 32)%Z ∧
  length (ex_findGrids_short AlphaOrbital)
    ≠ nAlpha (m_canonicalOrbitals (this ex_world_idle)) ∧
  computeFirstOrderDensityMatrix ex_findGrids_short ex_totalProgress ex_world_idle
    = mkWorld ex_layer [] [] [] [QLogError "Not all orbitals available"] ∧
  request_rejected ex_world_idle
    (computeFirstOrderDensityMatrix ex_findGrids_short ex_totalProgress ex_world_idle).
Proof.
  split; [simpl; lia |]. split; [simpl; lia |].
  refine (C7_incomplete_orbital_set ex_findGrids_short ex_totalProgress
            ex_world_idle _ _); simpl; lia.
Defined.



Lemma C10_bin_width_is_fixed_witness :
  Z.of_nat (length (ex_findGrids AlphaOrbital))
    = int_of_unsigned (Z.of_nat (nAlpha (m_canonicalOrbitals (this ex_world_idle)))) ∧
  ∃ job g,
    m_gridProduct
      (this (computeFirstOrderDensityMatrix ex_findGrids ex_totalProgress ex_world_idle))
      = Some job ∧
    gridProducts
      (computeFirstOrderDensityMatrix ex_findGrids ex_totalProgress ex_world_idle) !! job
      = Some g ∧
    gridProducts ex_world_idle !! job = None ∧
    gp_started g = true ∧ gp_binSize g = 0.1%float.
Proof.
  split; [reflexivity |].
  refine (proj1 (C10_bin_width_is_fixed ex_findGrids ex_totalProgress)
            ex_world_idle _).
  reflexivity.
Defined.

(** * Further properties of the code *)

(** ** Matrices are determined by their elements *)

Section MatrixExt.
Context {T : Type} `{Scalar T}.
Implicit Types A B M : Matrix T.

Lemma matrix_ext A B :
  wf A → wf B → size1 A = size1 B → size2 A = size2 B →
  (∀ i j, i < size1 A → j < size2 A → elt A i j = elt B i j) →
  A = B.
Proof.
  destruct A as [n m dA], B as [n' m' dB]. unfold wf, elt; simpl.
  intros HA HB <- <- Helt. f_equal. apply list_eq. intros p.
  destruct (decide (p < n * m)) as [Hp | Hp].
  - assert (m ≠ 0) as Hm by (intros ->; lia).
    pose proof (Nat.div_mod_eq p m) as Hdm.
    pose proof (Nat.mod_upper_bound p m Hm) as Hr.
    assert (p / m < n) as Hq by (apply Nat.Div0.div_lt_upper_bound; lia).
    specialize (Helt (p / m) (p mod m) Hq Hr).
    replace (p / m * m + p mod m) with p in Helt by lia.
    destruct (lookup_lt_is_Some_2 dA p) as [x Hx]; [lia |].
    destruct (lookup_lt_is_Some_2 dB p) as [y Hy]; [lia |].
    rewrite Hx, Hy in *. simpl in Helt. by subst.
  - rewrite !lookup_ge_None_2 by lia. done.
Qed.

Lemma matrix_of_square N (f : nat → nat → T) : square N (matrix_of N N f).
Proof. split; [apply matrix_of_wf | done]. Qed.

Lemma square_eq_matrix_of N M (f : nat → nat → T) :
  square N M → (∀ i j, i < N → j < N → elt M i j = f i j) → M = matrix_of N N f.
Proof.
  intros (Hwf & H1 & H2) Helt. apply matrix_ext; try done.
  - apply matrix_of_wf.
  - intros i j Hi Hj. rewrite matrix_of_elt by lia. apply Helt; lia.
Qed.

End MatrixExt.

(** ** Atom blocks *)

Lemma same_atomb_spec (offsets : list nat) N i j :
  same_atomb offsets N i j = true ↔ same_atom offsets N i j.
Proof.
  unfold same_atomb, same_atom. rewrite existsb_exists. split.
  - intros (atom & Hin & Hblock). apply in_seq in Hin. unfold atom_blockb in Hblock.
    destruct ((offsets ++ [N]) !! atom) as [b|] eqn:Hb; [| done].
    destruct ((offsets ++ [N]) !! (atom + 1)) as [e|] eqn:He; [| done].
    apply bool_decide_eq_true in Hblock.
    exists atom, b, e. split_and!; (done || lia).
  - intros (atom & b & e & Hlt & Hb & He & Hr).
    exists atom. split; [apply in_seq; lia |].
    unfold atom_blockb. rewrite Hb, He. by apply bool_decide_eq_true.
Qed.

Lemma same_atom_sym (offsets : list nat) N i j :
  same_atom offsets N i j → same_atom offsets N j i.
Proof.
  intros (atom & b & e & ? & ? & ? & ? & ?). exists atom, b, e. done.
Qed.

(** With the first offset at zero every basis function below [N] belongs
    to an atom. *)
Lemma same_atom_diag (offsets : list nat) N i :
  offsets !! 0 = Some 0 → i < N → same_atom offsets N i i.
Proof.
  destruct offsets as [|b0 rest]; [done |]. intros [= ->] Hi.
  assert (∀ b, b ≤ i → ∃ atom b' e, atom < length (b :: rest) ∧
            ((b :: rest) ++ [N]) !! atom = Some b' ∧
            ((b :: rest) ++ [N]) !! (atom + 1) = Some e ∧ b' ≤ i < e) as Hcover.
  { induction rest as [|b1 rest IH]; intros b Hb.
    - exists 0, b, N. simpl. split_and!; (done || lia).
    - destruct (decide (i < b1)) as [Hlt | Hge].
      + exists 0, b, b1. simpl. split_and!; (done || lia).
      + destruct (IH b1) as (atom & b' & e & Hatom & Hb' & He & Hr); [lia |].
        exists (S atom), b', e. simpl in *. split_and!; (done || lia). }
  destruct (Hcover 0) as (atom & b' & e & ? & ? & ? & ?); [lia |].
  exists atom, b', e. done.
Qed.

(** ** The six densities, element by element *)

Section DensityFacts.
Context {T : Type} `{Scalar T}.

(** Inside an atom block the diatomic element is zero, elsewhere it is
    the total. *)
Lemma diatomic_cases (co : CanonicalOrbitalsData (T:=T)) Pa Pb Tot Spin Dia Atm i j :
  densities_of co Pa Pb Tot Spin Dia Atm →
  i < nBasis co → j < nBasis co →
  elt Dia i j = if same_atomb (basisAtomOffsets co) (nBasis co) i j
                then zero else elt Tot i j.
Proof.
  intros (_ & _ & (_ & HT1 & HT2) & _ & _ & _ & _ & (_ & _ & _ & Hov)) Hi Hj.
  destruct (Hov i j) as [Hin Hout]; [lia.. |].
  destruct (same_atomb _ _ i j) eqn:Hb.
  - apply same_atomb_spec in Hb. specialize (Hin Hb). by injection Hin.
  - apply Hout. intros Hs. apply same_atomb_spec in Hs. congruence.
Qed.

Lemma computeDensityVectors_closed_form (junk : nat → T) {HistValue : Type}
    (l : Layer (HistValue:=HistValue)) :
  valid_input (m_canonicalOrbitals l) →
  computeDensityVectors junk l
    = Some (append_density l (densities_spec (m_canonicalOrbitals l))).
Proof.
  intros Hvalid.
  destruct (computeDensityVectors_spec junk l Hvalid)
    as (Pa & Pb & Tot & Spin & Dia & Atm & -> & Hdens).
  pose proof (λ i j, diatomic_cases _ _ _ _ _ _ _ i j Hdens) as HDia.
  destruct Hdens as (HsqPa & HsqPb & HsqTot & HsqSpin & HsqDia & HsqAtm & Helt & _).
  set (co := m_canonicalOrbitals l) in *.
  assert (∀ i j, i < nBasis co → j < nBasis co → elt Tot i j = total_elt co i j) as HTot.
  { intros i j Hi Hj. destruct (Helt i j Hi Hj) as (-> & -> & -> & _). done. }
  do 2 f_equal. unfold densities_spec, six_densities. fold co.
  repeat (f_equal; [f_equal |]).
  - apply square_eq_matrix_of; [done |]. intros i j Hi Hj. by apply Helt.
  - apply square_eq_matrix_of; [done |]. intros i j Hi Hj. by apply Helt.
  - by apply square_eq_matrix_of.
  - apply square_eq_matrix_of; [done |]. intros i j Hi Hj.
    destruct (Helt i j Hi Hj) as (<- & <- & _ & -> & _). done.
  - apply square_eq_matrix_of; [done |]. intros i j Hi Hj.
    rewrite HDia by done. unfold diatomic_elt. by rewrite HTot.
  - do 2 f_equal. apply square_eq_matrix_of; [done |]. intros i j Hi Hj.
    destruct (Helt i j Hi Hj) as (_ & _ & HT & _ & ->).
    rewrite <- HT, HDia by done. unfold diatomic_elt. by rewrite HTot.
Qed.

End DensityFacts.

Section DensityExtras.
Context {T : Type} `{Scalar T}.
Context {HistValue : Type}.
Implicit Types l : Layer (T:=T) (HistValue:=HistValue).

(** X1. On valid input the loops of [computeDensityVectors] compute the
    loop-free description [densities_spec] of the six densities, and what
    the freshly allocated or resized storage held never shows in the
    result. *)
Theorem X1_loops_compute_closed_form (junk junk' : nat → T) l :
  valid_input (m_canonicalOrbitals l) →
  computeDensityVectors junk l
    = Some (append_density l (densities_spec (m_canonicalOrbitals l))) ∧
  computeDensityVectors junk l = computeDensityVectors junk' l.
Proof.
  intros Hvalid.
  rewrite !computeDensityVectors_closed_form by done. done.
Qed.

(** X3. Without beta electrons (Nb = 0) the beta density is the zero
    matrix, every element of the total density is the alpha element plus
    zero, and, subtracting zero changing nothing (as it does for every
    double), the spin density is the alpha density. *)
Theorem X3_no_beta_electrons
    (sub_zero_r : ∀ x : T, sub x zero = x) (junk : nat → T) l :
  valid_input (m_canonicalOrbitals l) →
  nBeta (m_canonicalOrbitals l) = 0 →
  ∃ Pa Tot Dia Atm,
    appends_six junk l Pa
      (matrix_of (nBasis (m_canonicalOrbitals l)) (nBasis (m_canonicalOrbitals l))
                 (λ _ _, zero))
      Tot Pa Dia Atm ∧
    ∀ i j, i < nBasis (m_canonicalOrbitals l) → j < nBasis (m_canonicalOrbitals l) →
      elt Tot i j = add (elt Pa i j) zero.
Proof.
  intros Hvalid HNb.
  destruct (computeDensityVectors_spec junk l Hvalid)
    as (Pa & Pb & Tot & Spin & Dia & Atm & Hrun &
        HsqPa & HsqPb & HsqTot & HsqSpin & _ & _ & Helt & _).
  assert (∀ i j, i < nBasis (m_canonicalOrbitals l) →
                 j < nBasis (m_canonicalOrbitals l) → elt Pb i j = zero) as HPb.
  { intros i j Hi Hj. destruct (Helt i j Hi Hj) as (_ & -> & _).
    by rewrite HNb. }
  assert (Pb = matrix_of (nBasis (m_canonicalOrbitals l))
                 (nBasis (m_canonicalOrbitals l)) (λ _ _, zero)) as <-
    by by apply square_eq_matrix_of.
  assert (Spin = Pa) as ->.
  { destruct HsqSpin as (? & ? & ?), HsqPa as (? & ? & ?).
    apply matrix_ext; try congruence. intros i j Hi Hj.
    destruct (Helt i j) as (_ & _ & _ & -> & _); [lia.. |].
    rewrite HPb by lia. apply sub_zero_r. }
  exists Pa, Tot, Dia, Atm. split; [done |]. intros i j Hi Hj.
  destruct (Helt i j Hi Hj) as (_ & _ & -> & _). by rewrite HPb.
Qed.

(** X4. With a commutative scalar product all six matrices are symmetric:
    the alpha, beta, total and spin densities and both Mulliken matrices. *)
Theorem X4_all_densities_symmetric
    (mul_comm : ∀ x y : T, mul x y = mul y x) (junk : nat → T) l :
  valid_input (m_canonicalOrbitals l) →
  ∃ Pa Pb Tot Spin Dia Atm,
    appends_six junk l Pa Pb Tot Spin Dia Atm ∧
    Forall (λ d, symmetric (nBasis (m_canonicalOrbitals l)) (d_matrix d))
           (six_densities Pa Pb Tot Spin Dia Atm).
Proof.
  intros Hvalid.
  destruct (computeDensityVectors_spec junk l Hvalid)
    as (Pa & Pb & Tot & Spin & Dia & Atm & Hrun & Hdens).
  pose proof (λ i j, diatomic_cases _ _ _ _ _ _ _ i j Hdens) as HDia.
  destruct Hdens as (_ & _ & _ & _ & _ & _ & Helt & _).
  set (N := nBasis (m_canonicalOrbitals l)) in *.
  assert (symmetric N Pa) as HPa.
  { intros i j Hi Hj. destruct (Helt i j Hi Hj) as (-> & _).
    destruct (Helt j i Hj Hi) as (-> & _). by apply CtC_sym. }
  assert (symmetric N Pb) as HPb.
  { intros i j Hi Hj. destruct (Helt i j Hi Hj) as (_ & -> & _).
    destruct (Helt j i Hj Hi) as (_ & -> & _). by apply CtC_sym. }
  assert (symmetric N Tot) as HTot.
  { intros i j Hi Hj. destruct (Helt i j Hi Hj) as (_ & _ & -> & _).
    destruct (Helt j i Hj Hi) as (_ & _ & -> & _).
    by rewrite (HPa i j), (HPb i j). }
  assert (symmetric N Dia) as HDiaS.
  { intros i j Hi Hj. rewrite !HDia by done.
    assert (same_atomb (basisAtomOffsets (m_canonicalOrbitals l)) N i j
            = same_atomb (basisAtomOffsets (m_canonicalOrbitals l)) N j i) as ->.
    { apply eq_true_iff_eq. rewrite !same_atomb_spec.
      split; apply same_atom_sym. }
    by rewrite (HTot i j). }
  exists Pa, Pb, Tot, Spin, Dia, Atm. split; [done |].
  repeat apply Forall_cons_2; try apply Forall_nil_2; simpl; try done.
  - intros i j Hi Hj. destruct (Helt i j Hi Hj) as (_ & _ & _ & -> & _).
    destruct (Helt j i Hj Hi) as (_ & _ & _ & -> & _).
    by rewrite (HPa i j), (HPb i j).
  - intros i j Hi Hj. destruct (Helt i j Hi Hj) as (_ & _ & _ & _ & ->).
    destruct (Helt j i Hj Hi) as (_ & _ & _ & _ & ->).
    by rewrite (HPa i j), (HPb i j), (HDiaS i j).
Qed.

(** X5. When the first atom starts at basis function 0, every diagonal
    element of the Mulliken diatomic matrix is zero and, subtracting zero
    changing nothing, the diagonal of the Mulliken atomic matrix is the
    diagonal of the total density. *)
Theorem X5_mulliken_diagonal
    (sub_zero_r : ∀ x : T, sub x zero = x) (junk : nat → T) l :
  valid_input (m_canonicalOrbitals l) →
  basisAtomOffsets (m_canonicalOrbitals l) !! 0 = Some 0 →
  ∃ Pa Pb Tot Spin Dia Atm,
    appends_six junk l Pa Pb Tot Spin Dia Atm ∧
    ∀ i, i < nBasis (m_canonicalOrbitals l) →
      elt Dia i i = zero ∧ elt Atm i i = elt Tot i i.
Proof.
  intros Hvalid Hfirst.
  destruct (computeDensityVectors_spec junk l Hvalid)
    as (Pa & Pb & Tot & Spin & Dia & Atm & Hrun & Hdens).
  pose proof (λ i j, diatomic_cases _ _ _ _ _ _ _ i j Hdens) as HDia.
  destruct Hdens as (_ & _ & _ & _ & _ & _ & Helt & _).
  exists Pa, Pb, Tot, Spin, Dia, Atm. split; [done |]. intros i Hi.
  assert (elt Dia i i = zero) as HD.
  { rewrite HDia by done.
    rewrite (proj2 (same_atomb_spec _ _ i i)); [done |]. by apply same_atom_diag. }
  split; [done |].
  destruct (Helt i i Hi Hi) as (_ & _ & -> & _ & ->). by rewrite HD.
Qed.

(** X6. With no atom at all (an empty offsets list) nothing is zeroed: the
    Mulliken diatomic matrix is the total density, and every element of
    the Mulliken atomic matrix is the total element minus itself. *)
Theorem X6_no_atoms (junk : nat → T) l :
  valid_input (m_canonicalOrbitals l) →
  basisAtomOffsets (m_canonicalOrbitals l) = [] →
  ∃ Pa Pb Tot Spin,
    appends_six junk l Pa Pb Tot Spin Tot
      (matrix_of (nBasis (m_canonicalOrbitals l)) (nBasis (m_canonicalOrbitals l))
                 (λ i j, sub (elt Tot i j) (elt Tot i j))).
Proof.
  intros Hvalid Hnone.
  destruct (computeDensityVectors_spec junk l Hvalid)
    as (Pa & Pb & Tot & Spin & Dia & Atm & Hrun & Hdens).
  pose proof (λ i j, diatomic_cases _ _ _ _ _ _ _ i j Hdens) as HDia.
  destruct Hdens as (_ & _ & HsqTot & _ & HsqDia & HsqAtm & Helt & _).
  rewrite Hnone in HDia. unfold same_atomb in HDia. simpl in HDia.
  assert (Dia = Tot) as ->.
  { destruct HsqTot as (? & ? & ?), HsqDia as (? & ? & ?).
    apply matrix_ext; try congruence. intros i j Hi Hj. apply HDia; lia. }
  assert (Atm = matrix_of (nBasis (m_canonicalOrbitals l))
                  (nBasis (m_canonicalOrbitals l))
                  (λ i j, sub (elt Tot i j) (elt Tot i j))) as HAtm.
  { apply square_eq_matrix_of; [done |]. intros i j Hi Hj.
    destruct (Helt i j Hi Hj) as (_ & _ & HT & _ & ->). by rewrite <- HT. }
  exists Pa, Pb, Tot, Spin. by rewrite <- HAtm.
Qed.

End DensityExtras.

(** ** What a completed run says about the accesses made *)

Lemma for_loop_Some_inv {St : Type} (P : St → Prop) (body : nat → St → option St)
    (count i : nat) (s s' : St) :
  for_loop count i body s = Some s' → P s →
  (∀ k t t', body k t = Some t' → P t → P t') →
  P s' ∧ ∀ k, i ≤ k < i + count → ∃ t t', P t ∧ body k t = Some t'.
Proof.
  revert i s. induction count as [|count IH]; intros i s Hrun Hs Hpres; simpl in Hrun.
  - injection Hrun as <-. split; [done | lia].
  - destruct (body i s) as [t|] eqn:Hbody; [| done]. simpl in Hrun.
    destruct (IH (i + 1) t Hrun) as [Hs' Hall]; [by eapply Hpres | done |].
    split; [done |]. intros k Hk.
    destruct (decide (k = i)) as [-> | Hne]; [by exists s, t |].
    apply Hall. lia.
Qed.

Lemma for_range_Some_inv {St : Type} (P : St → Prop) (body : nat → St → option St)
    (lo hi : nat) (s s' : St) :
  for_range lo hi body s = Some s' → P s →
  (∀ k t t', body k t = Some t' → P t → P t') →
  P s' ∧ ∀ k, lo ≤ k < hi → ∃ t t', P t ∧ body k t = Some t'.
Proof.
  intros Hrun Hs Hpres.
  destruct (for_loop_Some_inv P body _ _ _ _ Hrun Hs Hpres) as [Hs' Hall].
  split; [done |]. intros k Hk. apply Hall. lia.
Qed.

Section AccessFacts.
Context {T : Type} `{Scalar T}.
Implicit Types A C M : Matrix T.

Lemma set_at_Some A i j v A' :
  set_at A i j v = Some A' →
  i < size1 A ∧ j < size2 A ∧ size1 A' = size1 A ∧ size2 A' = size2 A.
Proof.
  unfold set_at. destruct (in_range A i j) eqn:Hin; [| done].
  apply in_range_true in Hin. intros [= <-]. simpl. tauto.
Qed.

Lemma at_is_Some A i j v : at_ A i j = Some v → i < size1 A ∧ j < size2 A.
Proof.
  unfold at_. destruct (in_range A i j) eqn:Hin; [| done].
  by apply in_range_true in Hin.
Qed.

Lemma copy_coefficients_Some A rows N C C' :
  copy_coefficients A rows N C = Some C' →
  ∀ i j, i < rows → j < N → i < size1 A ∧ j < size2 A.
Proof.
  intros Hrun i j Hi Hj. unfold copy_coefficients in Hrun.
  destruct (for_range_Some_inv (λ _, True) _ _ _ _ _ Hrun) as [_ Hrows]; [done.. |].
  destruct (Hrows i) as (t & t' & _ & Hrow); [lia |].
  destruct (for_range_Some_inv (λ _, True) _ _ _ _ _ Hrow) as [_ Hcols]; [done.. |].
  destruct (Hcols j) as (u & u' & _ & Hcell); [lia |].
  destruct (at_ A i j) as [v|] eqn:Hat; [| done].
  by apply at_is_Some in Hat.
Qed.

Lemma zero_atom_blocks_Some (offs : list nat) nAtoms N M M' :
  zero_atom_blocks offs nAtoms M = Some M' →
  size1 M = N → size2 M = N →
  ∀ atom b e i j, atom < nAtoms →
    offs !! atom = Some b → offs !! (atom + 1) = Some e →
    b ≤ i < e → b ≤ j < e → i < N ∧ j < N.
Proof.
  intros Hrun H1 H2 atom b e i j Hatom Hb He Hi Hj.
  set (P := λ M : Matrix T, size1 M = N ∧ size2 M = N).
  assert (∀ lo hi k (t t' : Matrix T),
    for_range lo hi (λ j M', set_at M' k j zero) t = Some t' → P t → P t') as Hinner.
  { intros lo hi k t t' Hr Ht.
    apply (for_range_Some_inv P _ _ _ _ _ Hr Ht).
    intros c u u' Hset [Hu1 Hu2]. apply set_at_Some in Hset. unfold P. lia. }
  assert (∀ lo hi (t t' : Matrix T),
    for_range lo hi (λ i, for_range lo hi (λ j M', set_at M' i j zero)) t = Some t' →
    P t → P t') as Houter.
  { intros lo hi t t' Hr Ht.
    apply (for_range_Some_inv P _ _ _ _ _ Hr Ht).
    intros k u u'. apply Hinner. }
  unfold zero_atom_blocks in Hrun.
  destruct (for_range_Some_inv P _ _ _ _ _ Hrun) as [_ Hatoms]; [done | |].
  { intros k t t' Hbody Ht.
    destruct (offs !! k) as [b'|]; [| done]. simpl in Hbody.
    destruct (offs !! (k + 1)) as [e'|]; [| done]. simpl in Hbody.
    by eapply Houter. }
  destruct (Hatoms atom) as (t & t' & Ht & Hbody); [lia |].
  rewrite Hb, He in Hbody. simpl in Hbody.
  destruct (for_range_Some_inv P _ _ _ _ _ Hbody Ht) as [_ Hrows].
  { intros k u u'. apply Hinner. }
  destruct (Hrows i Hi) as (u & u' & Hu & Hrow).
  destruct (for_range_Some_inv P _ _ _ _ _ Hrow Hu) as [_ Hcols].
  { intros c v v' Hset [Hv1 Hv2]. apply set_at_Some in Hset. unfold P. lia. }
  destruct (Hcols j Hj) as (v & v' & [Hv1 Hv2] & Hset).
  apply set_at_Some in Hset. lia.
Qed.

Lemma density_of_Some_shape (junk : nat → T) C N P :
  density_of junk C N = Some P → size1 P = N ∧ size2 P = N.
Proof.
  unfold density_of, prod. case_bool_decide; [| done]. simpl.
  unfold noalias_assign, same_shape. simpl.
  repeat case_bool_decide; simpl; try done. intros [= <-]. simpl. lia.
Qed.

Lemma madd_Some_shape P Q R :
  madd P Q = Some R → size1 R = size1 P ∧ size2 R = size2 P.
Proof. unfold madd. destruct (same_shape P Q); [| done]. by intros [= <-]. Qed.

(** X2. [computeDensityVectors] completes only if every access it makes is
    in range: each coefficient element [(i, j)] with [i] below the
    occupied count and [j] below [N] exists in the alpha and in the beta
    coefficient matrix, and the block of every atom lies inside the
    [N x N] density. *)
Theorem X2_completion_needs_in_range_accesses (junk : nat → T)
    {HistValue : Type} (l l' : Layer (T:=T) (HistValue:=HistValue)) :
  computeDensityVectors junk l = Some l' →
  let co := m_canonicalOrbitals l in
  (∀ i j, i < nAlpha co → j < nBasis co →
     i < size1 (alphaCoefficients co) ∧ j < size2 (alphaCoefficients co)) ∧
  (∀ i j, i < nBeta co → j < nBasis co →
     i < size1 (betaCoefficients co) ∧ j < size2 (betaCoefficients co)) ∧
  (∀ atom b e i j, atom < length (basisAtomOffsets co) →
     (basisAtomOffsets co ++ [nBasis co]) !! atom = Some b →
     (basisAtomOffsets co ++ [nBasis co]) !! (atom + 1) = Some e →
     b ≤ i < e → b ≤ j < e → i < nBasis co ∧ j < nBasis co).
Proof.
  intros Hrun co. unfold computeDensityVectors in Hrun. fold co in Hrun.
  destruct (copy_coefficients (alphaCoefficients co) _ _ _) as [Ca|] eqn:HCa;
    [| done]. simpl in Hrun.
  destruct (density_of junk Ca _) as [Pa|] eqn:HPa; [| done]. simpl in Hrun.
  destruct (copy_coefficients (betaCoefficients co) _ _ _) as [Cb|] eqn:HCb;
    [| done]. simpl in Hrun.
  destruct (density_of junk Cb _) as [Pb|] eqn:HPb; [| done]. simpl in Hrun.
  destruct (madd Pa Pb) as [Tot|] eqn:HTot; [| done]. simpl in Hrun.
  destruct (msub Pa Pb) as [Spin|]; [| done]. simpl in Hrun.
  destruct (zero_atom_blocks _ _ Tot) as [Dia|] eqn:HDia; [| done].
  apply density_of_Some_shape in HPa. apply madd_Some_shape in HTot.
  split_and!.
  - by eapply copy_coefficients_Some.
  - by eapply copy_coefficients_Some.
  - eapply zero_atom_blocks_Some; [exact HDia | lia | lia].
Qed.

End AccessFacts.

(** ** The constructor, in closed form *)

(** X7. For canonical orbitals on valid input the constructed layer holds
    the inherited densities, the six computed ones and the upstream ones,
    has no dialog and no job, an empty histogram, and the number it logs is
    the sum of the three counts. *)
Theorem X7_constructed_layer {T : Type} `{Scalar T} {HistValue : Type}
    (junk : nat → T) (inherited : list Density)
    (co : CanonicalOrbitalsData (T:=T)) :
  orbitalType co = Canonical → valid_input co →
  CanonicalOrbitals_ctor (HistValue:=HistValue) junk inherited co
    = Some (mkLayer co (inherited ++ densities_spec co ++ densityList co)
                    None None [],
            [QDebugCount "Number of available densities"
               (length inherited + 6 + length (densityList co))]).
Proof.
  intros Htype Hvalid. unfold CanonicalOrbitals_ctor.
  rewrite decide_True by done.
  rewrite (computeDensityVectors_closed_form junk) by done. simpl.
  unfold append_density; simpl. rewrite <- !app_assoc.
  do 4 f_equal. rewrite !length_app. simpl. lia.
Qed.

(** ** (int) of an unsigned value *)

(** [(int)u] lies in the range of a 32-bit int, agrees with [u] modulo
    2^32, and is [u] itself exactly when [u] is in that range: for an
    unsigned [u], exactly when [u] is below 2^31. *)
Lemma int_of_unsigned_spec (u : Z) :
  (- 2 ^ 31 ≤ int_of_unsigned u < 2 ^ 31)%Z ∧
  (int_of_unsigned u `mod` 2 ^ 32 = u `mod` 2 ^ 32)%Z ∧
  (int_of_unsigned u = u ↔ (- 2 ^ 31 ≤ u < 2 ^ 31)%Z).
Proof.
  unfold int_of_unsigned.
  assert (0 ≤ u `mod` 2 ^ 32 < 2 ^ 32)%Z as Hm by (apply Z.mod_pos_bound; lia).
  assert (∀ k, ((u `mod` 2 ^ 32 + k * 2 ^ 32) `mod` 2 ^ 32 = u `mod` 2 ^ 32)%Z) as Hwrap.
  { intros k. rewrite Z.mod_add by lia. apply Z.mod_mod. lia. }
  assert ((- 2 ^ 31 ≤ u < 0)%Z → (u `mod` 2 ^ 32 = u + 2 ^ 32)%Z) as Hneg.
  { intros Hu. rewrite <- (Z.mod_add u 1) by lia. apply Z.mod_small. lia. }
  case_bool_decide as Hlt.
  - split; [lia |]. split.
    + apply Z.mod_mod. lia.
    + split; [lia |]. intros Hu.
      destruct (decide (u < 0)%Z); [| apply Z.mod_small; lia].
      rewrite Hneg in Hlt by lia. lia.
  - split; [lia |]. split.
    + rewrite <- (Hwrap (-1)%Z) at 2. f_equal; lia.
    + split; [lia |]. intros Hu.
      destruct (decide (u < 0)%Z); [rewrite Hneg by lia; lia |].
      rewrite Z.mod_small in Hlt by lia. lia.
Qed.

(** ** Requests and finished jobs *)

Section RequestExtras.
Context {T : Type} {GridData HistValue : Type}.
Variable findGrids : SurfaceKind → list GridData.
Variable totalProgress : GridProduct (GridData:=GridData) → Z.
Implicit Types w : World (T:=T) (GridData:=GridData) (HistValue:=HistValue).

Local Abbreviation request := (computeFirstOrderDensityMatrix findGrids totalProgress).
Local Abbreviation new_job := (mkGridProduct (findGrids AlphaOrbital) binSize true).
Local Abbreviation new_dialog deleted :=
  (mkDialog NonModal true
     (totalProgress (mkGridProduct (findGrids AlphaOrbital) binSize false))
     deleted).

Lemma request_cases w :
  request_rejected w (request w) ∨
  (Z.of_nat (length (findGrids AlphaOrbital))
     = int_of_unsigned (Z.of_nat (nAlpha (m_canonicalOrbitals (this w)))) ∧
   request w
   = mkWorld
       (set_pointers (this w) (Some (length (progressDialogs w)))
                     (Some (length (gridProducts w))))
       (gridProducts w ++ [new_job])
       (progressDialogs w ++ [new_dialog false])
       (connections w ++
          [progressValue_setValue (length (gridProducts w)) (length (progressDialogs w));
           finished_firstOrderDensityMatrixFinished (length (gridProducts w))])
       (qlog w ++ [QLogInfo "Starting grid calc"])).
Proof.
  destruct (decide (Z.of_nat (length (findGrids AlphaOrbital))
     = int_of_unsigned (Z.of_nat (nAlpha (m_canonicalOrbitals (this w))))))
    as [Heq | Hne].
  - right. split; [done |]. by apply request_accepted.
  - left. unfold computeFirstOrderDensityMatrix.
    rewrite bool_decide_eq_true_2 by done.
    unfold request_rejected; simpl. split_and!; [done.. |]. by eexists.
Qed.

(** X8. For an occupied alpha count that fits an unsigned, a request
    starts a job exactly when the number of alpha grids equals the count
    and the count is below 2^31; in every other case, so for every count
    from 2^31 on whatever the grids, it is turned down with an error. *)
Theorem X8_request_accepted_iff w :
  (Z.of_nat (nAlpha (m_canonicalOrbitals (this w))) < 2 ^ 32)%Z →
  (length (findGrids AlphaOrbital) = nAlpha (m_canonicalOrbitals (this w)) ∧
   (Z.of_nat (nAlpha (m_canonicalOrbitals (this w))) < 2 ^ 31)%Z →
   gridProducts (request w) = gridProducts w ++ [new_job] ∧
   m_gridProduct (this (request w)) = Some (length (gridProducts w))) ∧
  (¬ (length (findGrids AlphaOrbital) = nAlpha (m_canonicalOrbitals (this w)) ∧
      (Z.of_nat (nAlpha (m_canonicalOrbitals (this w))) < 2 ^ 31)%Z) →
   request_rejected w (request w)).
Proof.
  intros Hrange. split.
  - intros [Hlen Hsmall]. rewrite request_accepted; [done |].
    unfold int_of_unsigned. rewrite Z.mod_small by lia.
    rewrite bool_decide_eq_true_2 by done. lia.
  - intros Hnot. destruct (request_cases w) as [Hrej | [Heq _]]; [done |].
    exfalso. apply Hnot. unfold int_of_unsigned in Heq.
    rewrite Z.mod_small in Heq by lia. case_bool_decide; lia.
Qed.

(** X9. Whatever its outcome, a request leaves the orbital data and the
    list of available densities of the layer as they were, and only ever
    adds to the jobs, dialogs, connections and log: what was there stays,
    in place.  (The histogram is handed to the job and is not covered.) *)
Theorem X9_request_only_adds w :
  let w' := computeFirstOrderDensityMatrix findGrids totalProgress w in
  m_canonicalOrbitals (this w') = m_canonicalOrbitals (this w) ∧
  m_availableDensities (this w') = m_availableDensities (this w) ∧
  gridProducts w `prefix_of` gridProducts w' ∧
  progressDialogs w `prefix_of` progressDialogs w' ∧
  connections w `prefix_of` connections w' ∧
  qlog w `prefix_of` qlog w'.
Proof.
  intros w'. subst w'.
  destruct (request_cases w) as [(Hthis & -> & -> & -> & msg & ->) | [_ ->]].
  - rewrite Hthis. split_and!; try done. by apply prefix_app_r.
  - simpl. split_and!; try done; by apply prefix_app_r.
Qed.

(** X10. A request that is accepted, then the job leaving any contents
    [values] in the histogram, then the finished signal of the job: the
    slot runs, the layer has no dialog any more, the dialog of the request
    is scheduled for deletion, the job stays the active, started job of
    the layer (nothing releases it), and the log gains the start message
    and one line per bin of the histogram as the job left it. *)
Theorem X10_request_then_finished w (values : list HistValue) :
  Z.of_nat (length (findGrids AlphaOrbital))
    = int_of_unsigned (Z.of_nat (nAlpha (m_canonicalOrbitals (this w)))) →
  firstOrderDensityMatrixFinished (job_writes values (request w))
  = Some (mkWorld
            (mkLayer (m_canonicalOrbitals (this w)) (m_availableDensities (this w))
                     None (Some (length (gridProducts w))) values)
            (gridProducts w ++ [new_job])
            (progressDialogs w ++ [new_dialog true])
            (connections w ++
               [progressValue_setValue (length (gridProducts w))
                                       (length (progressDialogs w));
                finished_firstOrderDensityMatrixFinished (length (gridProducts w))])
            (qlog w ++ [QLogInfo "Starting grid calc"] ++
               imap (λ i v, QDebugBin (bin_start i) v) values)).
Proof.
  intros Hcount. rewrite (request_accepted _ _ w Hcount).
  unfold firstOrderDensityMatrixFinished, job_writes; simpl. do 2 f_equal.
  - replace (length (progressDialogs w)) with (length (progressDialogs w) + 0) at 1 by lia.
    by rewrite alter_app_r.
  - by rewrite <- app_assoc.
Qed.

(** X11. Two accepted requests in a row, then the finished signals of the
    two jobs: the first signal is served and schedules the dialog of the
    second request for deletion; the second signal finds no dialog, so the
    slot calls [deleteLater] through a null pointer; and the dialog of the
    first request is never scheduled for deletion. *)
Theorem X11_two_requests_two_finished w :
  Z.of_nat (length (findGrids AlphaOrbital))
    = int_of_unsigned (Z.of_nat (nAlpha (m_canonicalOrbitals (this w)))) →
  ∃ w3,
    firstOrderDensityMatrixFinished (request (request w)) = Some w3 ∧
    progressDialogs w3 = progressDialogs w ++ [new_dialog false; new_dialog true] ∧
    gridProducts w3 = gridProducts w ++ [new_job; new_job] ∧
    m_progressDialog (this w3) = None ∧
    firstOrderDensityMatrixFinished w3 = None.
Proof.
  intros Hcount.
  assert (Z.of_nat (length (findGrids AlphaOrbital))
    = int_of_unsigned (Z.of_nat (nAlpha (m_canonicalOrbitals (this (request w))))))
    as Hcount'.
  { by rewrite (request_accepted _ _ w Hcount). }
  rewrite (request_accepted findGrids totalProgress (request w) Hcount').
  rewrite (request_accepted findGrids totalProgress w Hcount). simpl.
  unfold firstOrderDensityMatrixFinished; simpl.
  eexists. split; [done |]. simpl. split_and!; try done.
  - rewrite length_app; simpl.
    replace (length (progressDialogs w) + 1) with
      (length (progressDialogs w ++ [new_dialog false]) + 0)
      by (rewrite length_app; simpl; lia).
    rewrite alter_app_r. simpl. by rewrite <- app_assoc.
  - by rewrite <- app_assoc.
Qed.

End RequestExtras.

(** ** States the layer reaches *)

Section ReachableStates.
Context {T : Type} {GridData HistValue : Type}.
Variable totalProgress : GridProduct (GridData:=GridData) → Z.
Implicit Types w : World (T:=T) (GridData:=GridData) (HistValue:=HistValue).

Lemma connections_of_S n :
  connections_of (S n)
  = connections_of n ++
      [progressValue_setValue n n; finished_firstOrderDensityMatrixFinished n].
Proof.
  unfold connections_of. by rewrite seq_S, flat_map_app.
Qed.

Lemma deliver_consistent e w w' :
  (Z.of_nat (nAlpha (m_canonicalOrbitals (this w))) < 2 ^ 32)%Z →
  jobs_consistent w →
  deliver totalProgress e w = Some w' →
  jobs_consistent w' ∧ same_data w w'.
Proof.
  intros Hrange (Hdialogs & Hconns & Hjobs & Hjob & Hdialog) Hstep.
  destruct e as [findGrids | values |]; simpl in Hstep.
  - injection Hstep as <-.
    destruct (request_cases findGrids totalProgress w)
      as [(Hthis & Hj & Hd & Hc & _) | [Hcount ->]].
    + split; [| unfold same_data; by rewrite Hthis].
      unfold jobs_consistent. rewrite Hthis, Hj, Hd, Hc. done.
    + split; [| done]. unfold jobs_consistent; simpl.
      rewrite !length_app; simpl. rewrite Hdialogs, Hconns.
      replace (length (gridProducts w) + 1) with (S (length (gridProducts w))) by lia.
      split_and!.
      * done.
      * by rewrite connections_of_S.
      * apply Forall_app. split; [done |]. apply Forall_singleton. simpl.
        split_and!; [done.. |].
        destruct (int_of_unsigned_cases _ Hrange) as [Heq | Hneg]; lia.
      * simpl. f_equal. lia.
      * right. split; [lia |]. f_equal. lia.
  - injection Hstep as <-. split; [| done].
    unfold jobs_consistent, job_writes; simpl. split_and!; done.
  - unfold firstOrderDensityMatrixFinished in Hstep.
    destruct (m_progressDialog (this w)) as [d|]; [| done].
    injection Hstep as <-. split; [| done].
    unfold jobs_consistent; simpl. rewrite length_alter.
    split_and!; try done. by left.
Qed.

(** X12. Starting from a layer without job, dialog or connection, whose
    occupied alpha count fits an unsigned, and through any sequence of
    requests (each with its own contents of the grid store), writes of
    the job into the histogram and finished signals that can be served:
    there are as many dialogs as jobs, job [k] is connected to dialog [k]
    and to the slot of the layer, every job is started, holds as many
    grids as there are occupied alpha orbitals and the bin width 0.1, the
    active job is the last one created, and the dialog of the layer is
    the last one or none.  The orbital data and the available densities
    held by the layer never change. *)
Theorem X12_reachable_states_consistent (es : list Event) w0 w :
  (Z.of_nat (nAlpha (m_canonicalOrbitals (this w0))) < 2 ^ 32)%Z →
  gridProducts w0 = [] → progressDialogs w0 = [] → connections w0 = [] →
  m_gridProduct (this w0) = None → m_progressDialog (this w0) = None →
  deliver_all totalProgress es w0 = Some w →
  jobs_consistent w ∧
  m_canonicalOrbitals (this w) = m_canonicalOrbitals (this w0) ∧
  m_availableDensities (this w) = m_availableDensities (this w0).
Proof.
  intros Hrange Hj Hd Hc Hjob Hdlg Hrun.
  assert (jobs_consistent w0) as Hinit.
  { unfold jobs_consistent. rewrite Hj, Hd, Hc, Hjob, Hdlg. simpl.
    split_and!; try done. by left. }
  clear Hj Hd Hc Hjob Hdlg.
  change (jobs_consistent w ∧ same_data w0 w).
  revert w0 Hrange Hinit Hrun.
  induction es as [|e es IH]; intros w0 Hrange Hinit Hrun; simpl in Hrun.
  - injection Hrun as <-. done.
  - destruct (deliver totalProgress e w0) as [w1|] eqn:Hstep; [| done].
    simpl in Hrun.
    destruct (deliver_consistent e w0 w1 Hrange Hinit Hstep) as [Hinv (H1 & H2)].
    destruct (IH w1) as [Hinv' (H1' & H2')]; [by rewrite H1 | done | done |].
    split; [done |]. unfold same_data. split; congruence.
Qed.

End ReachableStates.

Section FinishedSlot.
Context {T : Type} {GridData HistValue : Type}.
Implicit Types w : World (T:=T) (GridData:=GridData) (HistValue:=HistValue).

(** X13. The slot run on [finished()] can be served exactly when the layer
    has a dialog.  When it is served it logs one line per histogram bin,
    in order, bin [i] with the label [i * 0.1] and its value, and changes
    neither the histogram nor any job or connection. *)
Theorem X13_histogram_report w :
  (is_Some (firstOrderDensityMatrixFinished w)
   ↔ is_Some (m_progressDialog (this w))) ∧
  ∀ w', firstOrderDensityMatrixFinished w = Some w' →
    length (qlog w') = length (qlog w) + length (m_values (this w)) ∧
    (∀ i v, m_values (this w) !! i = Some v →
       qlog w' !! (length (qlog w) + i) = Some (QDebugBin (bin_start i) v)) ∧
    (∀ i, i < length (qlog w) → qlog w' !! i = qlog w !! i) ∧
    m_values (this w') = m_values (this w) ∧
    gridProducts w' = gridProducts w ∧
    connections w' = connections w ∧
    m_gridProduct (this w') = m_gridProduct (this w).
Proof.
  unfold firstOrderDensityMatrixFinished.
  destruct (m_progressDialog (this w)) as [d|]; simpl.
  - split; [split; intros _; by eexists |].
    intros w' [= <-]; simpl. split_and!; try done.
    + by rewrite length_app, length_imap.
    + intros i v Hv. rewrite lookup_app_r by lia.
      replace (length (qlog w) + i - length (qlog w)) with i by lia.
      by rewrite list_lookup_imap, Hv.
    + intros i Hi. by rewrite lookup_app_l.
  - split; [| done]. split; intros [? ?]; done.
Qed.

End FinishedSlot.

(** ** Labels *)

Lemma string_app_assoc (s1 s2 s3 : string) :
  (s1 +:+ s2) +:+ s3 = s1 +:+ s2 +:+ s3.
Proof.
  induction s1 as [|c s1 IH]; [reflexivity |].
  change (String c ((s1 +:+ s2) +:+ s3) = String c (s1 +:+ s2 +:+ s3)).
  by f_equal.
Qed.

(** X14. The tooltip is the plain label followed, for an orbital, by the
    energy line, and always by the isovalue line last; the plain label
    itself depends on the surface type only, not on the isovalue. *)
Theorem X14_tooltip_extends_label
    (isOrbital : SurfaceType → bool) (toString : SurfaceType → string)
    (orbitalLabel : nat → bool → string)
    (dataAlphaOrbitalEnergy dataBetaOrbitalEnergy : nat → float)
    (number_f_3 : float → string) (info : SurfaceInfo) :
  let describe := description isOrbital toString orbitalLabel
                    dataAlphaOrbitalEnergy dataBetaOrbitalEnergy number_f_3 in
  let type := si_type info in
  let energy :=
    if bool_decide (st_kind type = AlphaOrbital)
    then dataAlphaOrbitalEnergy (st_index type)
    else dataBetaOrbitalEnergy (st_index type) in
  describe info true
  = describe info false
    +:+ (if isOrbital type then (LF +:+ "Energy   = ") +:+ number_f_3 energy else "")
    +:+ (LF +:+ "Isovalue = ") +:+ number_f_3 (si_isovalue info) ∧
  ∀ isovalue, describe (mkSurfaceInfo type isovalue) false = describe info false.
Proof.
  intros describe type energy. subst describe type energy.
  unfold description. simpl. split; [| done].
  destruct (isOrbital (si_type info)); [| done].
  by rewrite string_app_assoc.
Qed.

(** X15. Which energy table a tooltip reads: the alpha energies for the
    kind AlphaOrbital and for no other kind, the beta energies for every
    other kind the type reports as an orbital; without tooltip, or for a
    surface that is not an orbital, neither table is read. *)
Theorem X15_energy_table_read
    (isOrbital : SurfaceType → bool) (toString : SurfaceType → string)
    (orbitalLabel : nat → bool → string)
    (alphaE alphaE' betaE betaE' : nat → float)
    (number_f_3 : float → string) (info : SurfaceInfo) (tooltip : bool) :
  let describe := description isOrbital toString orbitalLabel in
  (st_kind (si_type info) = AlphaOrbital →
   describe alphaE betaE number_f_3 info tooltip
   = describe alphaE betaE' number_f_3 info tooltip) ∧
  (st_kind (si_type info) ≠ AlphaOrbital →
   describe alphaE betaE number_f_3 info tooltip
   = describe alphaE' betaE number_f_3 info tooltip) ∧
  (tooltip = false ∨ isOrbital (si_type info) = false →
   describe alphaE betaE number_f_3 info tooltip
   = describe alphaE' betaE' number_f_3 info tooltip).
Proof.
  intros describe. subst describe. unfold description. split_and!.
  - intros Hkind. by rewrite bool_decide_eq_true_2.
  - intros Hkind. by rewrite bool_decide_eq_false_2.
  - intros [-> | ->]; [| done]. by destruct (isOrbital _).
Qed.

(** ** The further properties on the concrete inputs *)

Lemma X1_loops_compute_closed_form_witness :
  valid_input (m_canonicalOrbitals ex_layer) ∧
  computeDensityVectors (λ _, 7%Z) ex_layer
    = Some (append_density ex_layer (densities_spec (m_canonicalOrbitals ex_layer))) ∧
  computeDensityVectors (λ _, 7%Z) ex_layer
    = computeDensityVectors (λ p, Z.of_nat p) ex_layer.
Proof.
  split; [valid_by_computation |].
  refine (X1_loops_compute_closed_form (λ _, 7%Z) (λ p, Z.of_nat p) ex_layer _).
  valid_by_computation.
Defined.

Lemma X2_completion_needs_in_range_accesses_witness :
  computeDensityVectors (λ _, 7%Z) ex_layer
    = Some (append_density ex_layer (densities_spec ex_data)) ∧
  let co := m_canonicalOrbitals ex_layer in
  (∀ i j, i < nAlpha co → j < nBasis co →
     i < size1 (alphaCoefficients co) ∧ j < size2 (alphaCoefficients co)) ∧
  (∀ i j, i < nBeta co → j < nBasis co →
     i < size1 (betaCoefficients co) ∧ j < size2 (betaCoefficients co)) ∧
  (∀ atom b e i j, atom < length (basisAtomOffsets co) →
     (basisAtomOffsets co ++ [nBasis co]) !! atom = Some b →
     (basisAtomOffsets co ++ [nBasis co]) !! (atom + 1) = Some e →
     b ≤ i < e → b ≤ j < e → i < nBasis co ∧ j < nBasis co).
Proof.
  split; [vm_compute; reflexivity |].
  refine (X2_completion_needs_in_range_accesses (λ _, 7%Z) ex_layer
            (append_density ex_layer (densities_spec ex_data)) _).
  vm_compute. reflexivity.
Defined.

Lemma X3_no_beta_electrons_witness :
  valid_input (m_canonicalOrbitals ex_double_layer) ∧
  nBeta (m_canonicalOrbitals ex_double_layer) = 0 ∧
  ∃ Pa Tot Dia Atm,
    appends_six (λ _, nan) ex_double_layer Pa
                (matrix_of 3 3 (λ _ _, PrimFloat.zero)) Tot Pa Dia Atm ∧
    ∀ i j, i < 3 → j < 3 → elt Tot i j = PrimFloat.add (elt Pa i j) PrimFloat.zero.
Proof.
  split; [valid_by_computation |]. split; [reflexivity |].
  refine (X3_no_beta_electrons (H:=float_Scalar) float_sub_zero_r (λ _, nan)
            ex_double_layer _ _); [valid_by_computation | reflexivity].
Defined.

Lemma X4_all_densities_symmetric_witness :
  valid_input (m_canonicalOrbitals ex_double_layer) ∧
  ∃ Pa Pb Tot Spin Dia Atm,
    appends_six (λ _, nan) ex_double_layer Pa Pb Tot Spin Dia Atm ∧
    Forall (λ d, symmetric 3 (d_matrix d)) (six_densities Pa Pb Tot Spin Dia Atm).
Proof.
  split; [valid_by_computation |].
  refine (X4_all_densities_symmetric (H:=float_Scalar) float_mul_comm (λ _, nan)
            ex_double_layer _).
  valid_by_computation.
Defined.

Lemma X5_mulliken_diagonal_witness :
  valid_input (m_canonicalOrbitals ex_layer) ∧
  basisAtomOffsets (m_canonicalOrbitals ex_layer) !! 0 = Some 0 ∧
  ∃ Pa Pb Tot Spin Dia Atm,
    appends_six (λ _, 7%Z) ex_layer Pa Pb Tot Spin Dia Atm ∧
    ∀ i, i < 3 → elt Dia i i = 0%Z ∧ elt Atm i i = elt Tot i i.
Proof.
  split; [valid_by_computation |]. split; [reflexivity |].
  refine (X5_mulliken_diagonal (H:=Z_Scalar) Z.sub_0_r (λ _, 7%Z) ex_layer _ _);
    [valid_by_computation | reflexivity].
Defined.

Lemma X6_no_atoms_witness :
  valid_input (m_canonicalOrbitals ex_double_no_atoms_layer) ∧
  basisAtomOffsets (m_canonicalOrbitals ex_double_no_atoms_layer) = [] ∧
  ∃ Pa Pb Tot Spin,
    appends_six (λ _, nan) ex_double_no_atoms_layer Pa Pb Tot Spin Tot
                (matrix_of 2 2 (λ i j, PrimFloat.sub (elt Tot i j) (elt Tot i j))).
Proof.
  split; [valid_by_computation |]. split; [reflexivity |].
  refine (X6_no_atoms (H:=float_Scalar) (λ _, nan) ex_double_no_atoms_layer _ _);
    [valid_by_computation | reflexivity].
Defined.

Lemma X7_constructed_layer_witness :
  orbitalType ex_data_upstream = Canonical ∧ valid_input ex_data_upstream ∧
  CanonicalOrbitals_ctor (HistValue:=unit) (λ _, 7%Z) [] ex_data_upstream
    = Some (mkLayer ex_data_upstream
              ([] ++ densities_spec ex_data_upstream ++ [ex_upstream]) None None [],
            [QDebugCount "Number of available densities" (0 + 6 + 1)]).
Proof.
  split; [reflexivity |]. split; [valid_by_computation |].
  refine (X7_constructed_layer (λ _, 7%Z) [] ex_data_upstream _ _);
    [reflexivity | valid_by_computation].
Defined.

Lemma X8_request_accepted_iff_witness :
  (Z.of_nat (nAlpha (m_canonicalOrbitals (this ex_world_idle))) < 2 ^ 32)%Z ∧
  (length (ex_findGrids AlphaOrbital) = nAlpha (m_canonicalOrbitals (this ex_world_idle)) ∧
   (Z.of_nat (nAlpha (m_canonicalOrbitals (this ex_world_idle))) < 2 ^ 31)%Z →
   gridProducts (computeFirstOrderDensityMatrix ex_findGrids ex_totalProgress ex_world_idle)
     = gridProducts ex_world_idle ++ [mkGridProduct (ex_findGrids AlphaOrbital) binSize true] ∧
   m_gridProduct
     (this (computeFirstOrderDensityMatrix ex_findGrids ex_totalProgress ex_world_idle))
     = Some (length (gridProducts ex_world_idle))) ∧
  (¬ (length (ex_findGrids AlphaOrbital) = nAlpha (m_canonicalOrbitals (this ex_world_idle)) ∧
      (Z.of_nat (nAlpha (m_canonicalOrbitals (this ex_world_idle))) < 2 ^ 31)%Z) →
   request_rejected ex_world_idle
     (computeFirstOrderDensityMatrix ex_findGrids ex_totalProgress ex_world_idle)).
Proof.
  split; [simpl; lia |].
  refine (X8_request_accepted_iff ex_findGrids ex_totalProgress ex_world_idle _).
  simpl. lia.
Defined.

Lemma X10_request_then_finished_witness :
  Z.of_nat (length (ex_findGrids AlphaOrbital))
    = int_of_unsigned (Z.of_nat (nAlpha (m_canonicalOrbitals (this ex_world_idle)))) ∧
  firstOrderDensityMatrixFinished
    (job_writes [(); ()]
       (computeFirstOrderDensityMatrix ex_findGrids ex_totalProgress ex_world_idle))
  = Some (mkWorld (mkLayer ex_data [] None (Some 0) [(); ()])
            ([] ++ [mkGridProduct [0; 1] binSize true])
            ([] ++ [mkDialog NonModal true 8 true])
            ([] ++ [progressValue_setValue 0 0;
                    finished_firstOrderDensityMatrixFinished 0])
            ([] ++ [QLogInfo "Starting grid calc"] ++
               imap (λ i v, QDebugBin (bin_start i) v) [(); ()])).
Proof.
  split; [reflexivity |].
  refine (X10_request_then_finished ex_findGrids ex_totalProgress ex_world_idle
            [(); ()] _).
  reflexivity.
Defined.

Lemma X11_two_requests_two_finished_witness :
  Z.of_nat (length (ex_findGrids AlphaOrbital))
    = int_of_unsigned (Z.of_nat (nAlpha (m_canonicalOrbitals (this ex_world_idle)))) ∧
  ∃ w3,
    firstOrderDensityMatrixFinished
      (computeFirstOrderDensityMatrix ex_findGrids ex_totalProgress
         (computeFirstOrderDensityMatrix ex_findGrids ex_totalProgress ex_world_idle))
      = Some w3 ∧
    progressDialogs w3
      = [] ++ [mkDialog NonModal true 8 false; mkDialog NonModal true 8 true] ∧
    gridProducts w3
      = [] ++ [mkGridProduct [0; 1] binSize true; mkGridProduct [0; 1] binSize true] ∧
    m_progressDialog (this w3) = None ∧
    firstOrderDensityMatrixFinished w3 = None.
Proof.
  split; [reflexivity |].
  refine (X11_two_requests_two_finished ex_findGrids ex_totalProgress ex_world_idle _).
  reflexivity.
Defined.

Lemma X12_reachable_states_consistent_witness :
  (Z.of_nat (nAlpha (m_canonicalOrbitals (this ex_world_idle))) < 2 ^ 32)%Z ∧
  gridProducts ex_world_idle = [] ∧ progressDialogs ex_world_idle = [] ∧
  connections ex_world_idle = [] ∧
  m_gridProduct (this ex_world_idle) = None ∧
  m_progressDialog (this ex_world_idle) = None ∧
  deliver_all ex_totalProgress
    [RequestFirstOrderDensity ex_findGrids_short;
     RequestFirstOrderDensity ex_findGrids;
     JobWrites [(); ()]; JobFinished]
    ex_world_idle
    = Some (mkWorld (mkLayer ex_data [] None (Some 0) [(); ()])
              [mkGridProduct [0; 1] binSize true]
              [mkDialog NonModal true 8 true]
              [progressValue_setValue 0 0;
               finished_firstOrderDensityMatrixFinished 0]
              [QLogError "Not all orbitals available";
               QLogInfo "Starting grid calc";
               QDebugBin (bin_start 0) (); QDebugBin (bin_start 1) ()]) ∧
  jobs_consistent
    (mkWorld (mkLayer ex_data [] None (Some 0) [(); ()])
       [mkGridProduct [0; 1] binSize true]
       [mkDialog NonModal true 8 true]
       [progressValue_setValue 0 0;
        finished_firstOrderDensityMatrixFinished 0]
       [QLogError "Not all orbitals available";
        QLogInfo "Starting grid calc";
        QDebugBin (bin_start 0) (); QDebugBin (bin_start 1) ()]) ∧
  ex_data = m_canonicalOrbitals (this ex_world_idle) ∧
  [] = m_availableDensities (this ex_world_idle).
Proof.
  split; [simpl; lia |]. do 5 (split; [reflexivity |]).
  split; [reflexivity |].
  refine (X12_reachable_states_consistent ex_totalProgress
            [RequestFirstOrderDensity ex_findGrids_short;
             RequestFirstOrderDensity ex_findGrids;
             JobWrites [(); ()]; JobFinished]
            ex_world_idle _ _ _ _ _ _ _ _);
    reflexivity.
Defined.

(** ** The Mulliken partition in binary64 arithmetic *)

(** C3, as the code has it, in the arithmetic of the program.  On valid
    input, whatever the atom offsets (atoms with an empty range included):
    inside the block of an atom the diatomic element is zero and the
    atomic element is the total element; elsewhere the diatomic element is
    the total element and the atomic element is the total element minus
    itself; hence diatomic + atomic == total, with the comparison of IEEE
    754, at every element whose total is finite.  For a single atom
    spanning all N basis functions (the offsets list is [0]; the program
    appends N itself) the diatomic matrix is zero and the atomic matrix is
    the total density. *)
Theorem C3_mulliken_partition_binary64 (junk : nat → float) {HistValue : Type}
    (l : Layer (T:=float) (HistValue:=HistValue)) :
  valid_input (m_canonicalOrbitals l) →
  ∃ Pa Pb Tot Spin Dia Atm,
    computeDensityVectors junk l
      = Some (append_density l (six_densities Pa Pb Tot Spin Dia Atm)) ∧
    square (nBasis (m_canonicalOrbitals l)) Tot ∧
    square (nBasis (m_canonicalOrbitals l)) Dia ∧
    square (nBasis (m_canonicalOrbitals l)) Atm ∧
    (∀ i j, i < nBasis (m_canonicalOrbitals l) → j < nBasis (m_canonicalOrbitals l) →
       (same_atom (basisAtomOffsets (m_canonicalOrbitals l))
                  (nBasis (m_canonicalOrbitals l)) i j →
        elt Dia i j = PrimFloat.zero ∧ elt Atm i j = elt Tot i j) ∧
       (¬ same_atom (basisAtomOffsets (m_canonicalOrbitals l))
                    (nBasis (m_canonicalOrbitals l)) i j →
        elt Dia i j = elt Tot i j ∧
        elt Atm i j = PrimFloat.sub (elt Tot i j) (elt Tot i j)) ∧
       (is_finite (elt Tot i j) = true →
        PrimFloat.eqb (PrimFloat.add (elt Dia i j) (elt Atm i j)) (elt Tot i j)
        = true)) ∧
    (basisAtomOffsets (m_canonicalOrbitals l) = [0] →
     ∀ i j, i < nBasis (m_canonicalOrbitals l) → j < nBasis (m_canonicalOrbitals l) →
       elt Dia i j = PrimFloat.zero ∧ elt Atm i j = elt Tot i j).
Proof.
  intros Hvalid.
  destruct (computeDensityVectors_spec junk l Hvalid)
    as (Pa & Pb & Tot & Spin & Dia & Atm & Hrun & Hdens).
  pose proof (λ i j, diatomic_cases _ _ _ _ _ _ _ i j Hdens) as HDia.
  destruct Hdens as (_ & _ & HsqTot & _ & HsqDia & HsqAtm & Helt & _).
  set (N := nBasis (m_canonicalOrbitals l)) in *.
  set (offsets := basisAtomOffsets (m_canonicalOrbitals l)) in *.
  assert (∀ i j, i < N → j < N →
            elt Atm i j = PrimFloat.sub (elt Tot i j) (elt Dia i j)) as HAtm.
  { intros i j Hi Hj. destruct (Helt i j Hi Hj) as (_ & _ & -> & _ & ->). done. }
  assert (∀ i j, i < N → j < N → same_atom offsets N i j →
            elt Dia i j = PrimFloat.zero ∧ elt Atm i j = elt Tot i j) as Hin.
  { intros i j Hi Hj Hs. apply same_atomb_spec in Hs.
    specialize (HDia i j Hi Hj). rewrite Hs in HDia.
    rewrite HAtm, HDia by done. split; [done |]. apply float_sub_zero_r. }
  assert (∀ i j, i < N → j < N → ¬ same_atom offsets N i j →
            elt Dia i j = elt Tot i j ∧
            elt Atm i j = PrimFloat.sub (elt Tot i j) (elt Tot i j)) as Hout.
  { intros i j Hi Hj Hs. specialize (HDia i j Hi Hj).
    destruct (same_atomb offsets N i j) eqn:Hb.
    - by apply same_atomb_spec in Hb.
    - by rewrite HAtm, HDia. }
  exists Pa, Pb, Tot, Spin, Dia, Atm. split_and!; [done.. | |].
  - intros i j Hi Hj. split_and!; [by apply Hin | by apply Hout |].
    intros Hfin. destruct (same_atomb offsets N i j) eqn:Hb.
    + apply same_atomb_spec in Hb. destruct (Hin i j Hi Hj Hb) as [-> ->].
      by apply float_zero_add_eqb.
    + assert (¬ same_atom offsets N i j) as Hs.
      { intros Hs. apply same_atomb_spec in Hs. congruence. }
      destruct (Hout i j Hi Hj Hs) as [-> ->]. by apply float_add_sub_diag_eqb.
  - intros Hone i j Hi Hj. apply Hin; [done.. |].
    rewrite Hone. exists 0, 0, N. simpl. split_and!; (done || lia).
Qed.

(** C3 as stated fails in the arithmetic of the program: with alpha
    coefficients 1e200 the total density overflows to infinity, and off
    the atom blocks the atomic element is infinity - infinity, so that
    diatomic + atomic is not the total. *)
Lemma C3_partition_sum_fails_binary64 :
  valid_input (m_canonicalOrbitals ex_double_overflow_layer) ∧
  (l' ← computeDensityVectors (λ _, PrimFloat.zero) ex_double_overflow_layer;
   tot ← m_availableDensities l' !! 2;
   dia ← m_availableDensities l' !! 4;
   atm ← m_availableDensities l' !! 5;
   Some (d_type tot, d_type dia, d_type atm,
         elt (d_matrix tot) 0 1,
         PrimFloat.add (elt (d_matrix dia) 0 1) (elt (d_matrix atm) 0 1),
         PrimFloat.eqb
           (PrimFloat.add (elt (d_matrix dia) 0 1) (elt (d_matrix atm) 0 1))
           (elt (d_matrix tot) 0 1)))
  = Some (TotalDensity, MullikenDiatomic, MullikenAtomic, infinity, nan, false).
Proof.
  split; [valid_by_computation | vm_compute; reflexivity].
Qed.

Lemma C3_mulliken_partition_binary64_witness :
  valid_input (m_canonicalOrbitals ex_double_empty_atom_layer) ∧
  ∃ Pa Pb Tot Spin Dia Atm,
    computeDensityVectors (λ _, nan) ex_double_empty_atom_layer
      = Some (append_density ex_double_empty_atom_layer
                (six_densities Pa Pb Tot Spin Dia Atm)) ∧
    ∀ i j, i < 3 → j < 3 →
      is_finite (elt Tot i j) = true →
      PrimFloat.eqb (PrimFloat.add (elt Dia i j) (elt Atm i j)) (elt Tot i j) = true.
Proof.
  split; [valid_by_computation |].
  destruct (C3_mulliken_partition_binary64 (λ _, nan) ex_double_empty_atom_layer)
    as (Pa & Pb & Tot & Spin & Dia & Atm & Hrun & _ & _ & _ & Hsum & _);
    [valid_by_computation |].
  exists Pa, Pb, Tot, Spin, Dia, Atm. split; [exact Hrun |].
  intros i j Hi Hj. exact (proj2 (proj2 (Hsum i j Hi Hj))).
Defined.
